(** * BevoNetBackup: configuration snapshots and drift detection

    A shallow embedding of [scripts/diff_checker.py] (class
    [ConfigDiffChecker]) and of the backup path of
    [scripts/mock_backup_tool.py] (class [MockNetworkBackupTool]),
    together with the properties of the text normalizer, the positional
    diff, the snapshot listing and the fleet backup loop; then of the
    configuration generators of the backup tool, of the report of the
    checker and of [scripts/config_deployer.py] (class
    [ConfigDeployer]).

    Python values are modelled as follows.
    - [str] is a sequence of Unicode code points: [list N].
    - The dictionaries returned by the checker are records whose fields
      are [option]s: [None] means that the key is absent.
    - File system, clock and device sessions are explicit inputs. *)

From Stdlib Require Import List Bool Arith NArith QArith Lia Permutation Sorted.
From Stdlib Require Ascii String DecimalString DecimalNat.
Import ListNotations.
Import Ascii.AsciiSyntax String.StringSyntax.
Delimit Scope string_scope with string.
Bind Scope string_scope with String.string.

Close Scope Q_scope.
Local Open Scope nat_scope.
Local Open Scope list_scope.

(* ================================================================== *)
(** ** Python strings *)

Module PyStr.

(** A Python [str]: its code points, in order. *)
Definition str : Type := list N.

(** A literal of the source, written as a Rocq string. *)
Definition lit (s : String.string) : str :=
  map Ascii.N_of_ascii (String.list_ascii_of_string s).

Definition chr_eqb (a b : N) : bool := N.eqb a b.

Fixpoint str_eqb (a b : str) : bool :=
  match a, b with
  | [], [] => true
  | x :: a', y :: b' => chr_eqb x y && str_eqb a' b'
  | _, _ => false
  end.

(** Line boundaries of [str.splitlines]: LF, VT, FF, CR, FS, GS, RS,
    NEL, LS and PS. *)
Definition is_linebreak (c : N) : bool :=
  existsb (N.eqb c) [0x0A; 0x0B; 0x0C; 0x0D; 0x1C; 0x1D; 0x1E; 0x85; 0x2028; 0x2029]%N.

(** [str.isspace] on one code point, the characters removed by
    [str.strip()] without argument. *)
Definition is_space (c : N) : bool :=
  ((0x09 <=? c) && (c <=? 0x0D) || (0x1C <=? c) && (c <=? 0x20)
   || (0x2000 <=? c) && (c <=? 0x200A)
   || existsb (N.eqb c) [0x85; 0xA0; 0x1680; 0x2028; 0x2029; 0x202F; 0x205F; 0x3000])%N.

(** [s.splitlines()]: scan to the next line boundary, emit the text
    before it (without the boundary), treat CR LF as one boundary; text
    after the last boundary is a line only when it is not empty.  [cur]
    is the text of the line being scanned. *)
Fixpoint splitlines_from (cur : str) (s : str) : list str :=
  match s with
  | [] => match cur with [] => [] | _ => [cur] end
  | c :: rest =>
      if is_linebreak c then
        cur :: match rest with
               | c' :: rest' =>
                   if N.eqb c 0x0D && N.eqb c' 0x0A
                   then splitlines_from [] rest'
                   else splitlines_from [] rest
               | [] => splitlines_from [] rest
               end
      else splitlines_from (cur ++ [c]) rest
  end.

Definition splitlines (s : str) : list str := splitlines_from [] s.

(** [sep.join(parts)]. *)
Fixpoint join (sep : str) (parts : list str) : str :=
  match parts with
  | [] => []
  | [p] => p
  | p :: ps => p ++ sep ++ join sep ps
  end.

Fixpoint lstrip (s : str) : str :=
  match s with
  | c :: s' => if is_space c then lstrip s' else s
  | [] => []
  end.

Definition rstrip (s : str) : str := rev (lstrip (rev s)).

(** [s.strip()]. *)
Definition strip (s : str) : str := rstrip (lstrip s).

(** [s.startswith(prefix)]. *)
Fixpoint startswith (s prefix : str) : bool :=
  match prefix, s with
  | [], _ => true
  | p :: prefix', c :: s' => chr_eqb c p && startswith s' prefix'
  | _ :: _, [] => false
  end.

(** Order of [str] values: lexicographic on code points. *)
Fixpoint str_compare (a b : str) : comparison :=
  match a, b with
  | [], [] => Eq
  | [], _ :: _ => Lt
  | _ :: _, [] => Gt
  | x :: a', y :: b' =>
      match N.compare x y with
      | Eq => str_compare a' b'
      | c => c
      end
  end.

Definition str_ltb (a b : str) : bool :=
  match str_compare a b with Lt => true | _ => false end.

Definition str_lt (a b : str) : Prop := str_compare a b = Lt.

(** [str(n)] for a natural number, as in an f-string. *)
Definition str_of_nat (n : nat) : str :=
  lit (DecimalString.NilZero.string_of_uint (Nat.to_uint n)).

Definition nl : str := [0x0A%N].

End PyStr.
Import PyStr.

(* ================================================================== *)
(** ** Clock values and what may raise *)

(** The result of a call that may raise: the value returned, or
    [str(e)] of the exception. *)
Inductive outcome (A : Type) : Type :=
| Returned (a : A)
| Raised (msg : str).
Arguments Returned {A} a.
Arguments Raised {A} msg.

Module PyTime.

(** A naive [datetime], as [datetime.now()] returns. *)
Record datetime : Type := {
  year : N; month : N; day : N;
  hour : N; minute : N; second : N;
  microsecond : N
}.

(** The ranges a [datetime] object guarantees. *)
Definition valid_datetime (d : datetime) : Prop :=
  (1 <= year d <= 9999 /\ 1 <= month d <= 12 /\ 1 <= day d <= 31 /\
   hour d <= 23 /\ minute d <= 59 /\ second d <= 59 /\ microsecond d <= 999999)%N.

(** The capture time at the resolution of a file name: seconds. *)
Definition capture_time (d : datetime) : list N :=
  [year d; month d; day d; hour d; minute d; second d].

(** Chronological order of capture times. *)
Fixpoint time_compare (a b : list N) : comparison :=
  match a, b with
  | x :: a', y :: b' =>
      match N.compare x y with
      | Eq => time_compare a' b'
      | c => c
      end
  | [], [] => Eq
  | [], _ :: _ => Lt
  | _ :: _, [] => Gt
  end.

Definition earlier (d1 d2 : datetime) : Prop :=
  time_compare (capture_time d1) (capture_time d2) = Lt.

Definition digit (n : N) : N := (0x30 + n mod 10)%N.

(** The last [width] decimal digits of [n], zero padded: the fields of
    [strftime] ([%m], [%d], [%H], [%M], [%S] with two digits, [%Y] with
    four; for the years below 1000 the C library decides whether [%Y]
    is padded, and the model pads as the Python documentation says). *)
Fixpoint zero_pad (width : nat) (n : N) : str :=
  match width with
  | 0 => []
  | S w => zero_pad w (n / 10)%N ++ [digit n]
  end.

(** [d.strftime("%Y%m%d_%H%M%S")] *)
Definition strftime_Ymd_HMS (d : datetime) : str :=
  zero_pad 4 (year d) ++ zero_pad 2 (month d) ++ zero_pad 2 (day d) ++
  lit "_" ++ zero_pad 2 (hour d) ++ zero_pad 2 (minute d) ++ zero_pad 2 (second d).

(** [d.isoformat()] *)
Definition isoformat (d : datetime) : str :=
  zero_pad 4 (year d) ++ lit "-" ++ zero_pad 2 (month d) ++ lit "-" ++
  zero_pad 2 (day d) ++ lit "T" ++ zero_pad 2 (hour d) ++ lit ":" ++
  zero_pad 2 (minute d) ++ lit ":" ++ zero_pad 2 (second d) ++
  (if N.eqb (microsecond d) 0 then [] else lit "." ++ zero_pad 6 (microsecond d)).

End PyTime.
Import PyTime.

(* ================================================================== *)
(** ** The configuration diff checker *)

Module DiffChecker.

(** [default_patterns] of [load_ignore_patterns]. *)
Definition default_patterns : list str :=
  [ lit "! Last configuration change";
    lit "! NVRAM config last updated";
    lit "!Time:";
    lit "!";
    lit "#" ].

(** [load_ignore_patterns]: the list found under
    [comparison.ignore_lines] of the settings, when a settings file was
    given, exists and loads; the defaults otherwise.  [settings] is what
    the file yields: [None] when it is not given, missing or unreadable,
    [Some None] when it loads without the key. *)
Definition load_ignore_patterns (settings : option (option (list str))) : list str :=
  match settings with
  | Some (Some ignore_lines) => ignore_lines
  | Some None => default_patterns
  | None => default_patterns
  end.

Section Filter.

(** [self.ignore_patterns] *)
Variable ignore_patterns : list str.

(** The inner loop of [filter_ignored_lines]: the value of
    [ignore_line] when the loop over the patterns ends or breaks. *)
Fixpoint ignore_line_loop (patterns : list str) (line : str) : bool :=
  match patterns with
  | [] => false
  | pattern :: patterns' =>
      if startswith (strip line) pattern then true
      else ignore_line_loop patterns' line
  end.

(** The outer loop: [filtered_lines] after the remaining [lines]. *)
Fixpoint filter_loop (lines : list str) (filtered_lines : list str) : list str :=
  match lines with
  | [] => filtered_lines
  | line :: lines' =>
      if ignore_line_loop ignore_patterns line
      then filter_loop lines' filtered_lines
      else filter_loop lines' (filtered_lines ++ [line])
  end.

(** [filtered_lines] at the end of [filter_ignored_lines]. *)
Definition filtered_lines (config_content : str) : list str :=
  filter_loop (splitlines config_content) [].

Definition filter_ignored_lines (config_content : str) : str :=
  match config_content with
  | [] => []
  | _ => join nl (filtered_lines config_content)
  end.

End Filter.

(** One entry of [differences]. *)
Record DifferenceRecord : Type := {
  line_number : nat;
  old_value : str;
  new_value : str
}.

(** The dictionaries the checker returns; a key that is not set is
    [None]. *)
Record ResultDict : Type := {
  identical : option bool;
  differences_count : option nat;
  summary : option str;
  differences : option (list DifferenceRecord);
  device : option str;
  config1_file : option str;
  config2_file : option str;
  comparison_date : option str;
  error : option str;
  backups_available : option nat;
  backups_compared : option (str * str)  (* previous, latest *)
}.

(** A [Path] of the backup directory: [str(p)] and [p.name]. *)
Record Path : Type := {
  path_str : str;
  name : str
}.

(** What the checker reads from outside. *)
Record Env : Type := {
  read_text : str -> outcome str;        (* Path(p).read_text() *)
  path_name : str -> str;                (* Path(p).name *)
  now : datetime;                        (* datetime.now() *)
  backup_dir_exists : outcome bool;      (* self.backup_dir.exists() *)
  glob : str -> outcome (list Path)      (* list(self.backup_dir.glob(pattern)) *)
}.

(** [lines[i] if i < len(lines) else ""] *)
Definition line_at (lines : list str) (i : nat) : str :=
  if i <? length lines then nth i lines [] else [].

(** The body of the comparison loop at index [i]. *)
Definition compare_step (lines1 lines2 : list str)
    (differences : list DifferenceRecord) (i : nat) : list DifferenceRecord :=
  let line1 := line_at lines1 i in
  let line2 := line_at lines2 i in
  if negb (str_eqb line1 line2)
  then differences ++ [{| line_number := i + 1; old_value := line1; new_value := line2 |}]
  else differences.

(** [differences] after [for i in range(max_lines)]. *)
Definition compare_lines (lines1 lines2 : list str) : list DifferenceRecord :=
  let max_lines := Nat.max (length lines1) (length lines2) in
  fold_left (compare_step lines1 lines2) (seq 0 max_lines) [].

Section Checker.

Variable env : Env.
Variable ignore_patterns : list str.

(** The dictionary of the [except] branch of [compare_configs]. *)
Definition comparison_error (device_name e : str) : ResultDict :=
  {| identical := Some false;
     differences_count := Some 0;
     summary := Some (lit "Comparison error: " ++ e);
     differences := Some [];
     device := Some device_name;
     config1_file := None; config2_file := None; comparison_date := None;
     error := Some e;
     backups_available := None; backups_compared := None |}.

(** The comparison of the two texts, once both are read. *)
Definition compare_texts (config1_content config2_content : str)
    (config1_path config2_path device_name : str) : ResultDict :=
  let filtered1 := filter_ignored_lines ignore_patterns config1_content in
  let filtered2 := filter_ignored_lines ignore_patterns config2_content in
  let lines1 := splitlines filtered1 in
  let lines2 := splitlines filtered2 in
  let diffs := compare_lines lines1 lines2 in
  let ident := Nat.eqb (length diffs) 0 in
  let summ := if ident then lit "Configurations are identical"
              else lit "Found " ++ str_of_nat (length diffs) ++ lit " differences" in
  {| identical := Some ident;
     differences_count := Some (length diffs);
     summary := Some summ;
     differences := Some diffs;
     device := Some device_name;
     config1_file := Some (path_name env config1_path);
     config2_file := Some (path_name env config2_path);
     comparison_date := Some (isoformat (now env));
     error := None;
     backups_available := None; backups_compared := None |}.

Definition compare_configs (config1_path config2_path device_name : str) : ResultDict :=
  match read_text env config1_path with
  | Raised e => comparison_error device_name e
  | Returned config1_content =>
      match read_text env config2_path with
      | Raised e => comparison_error device_name e
      | Returned config2_content =>
          compare_texts config1_content config2_content
                        config1_path config2_path device_name
      end
  end.

(** [backup_files.sort(key=lambda x: x.name, reverse=True)]: a stable
    sort on the names, greatest first.  [insert_by_name x sorted] puts
    [x], which stood before every element of [sorted], after the
    elements of a strictly greater name. *)
Fixpoint insert_by_name (x : Path) (sorted : list Path) : list Path :=
  match sorted with
  | [] => [x]
  | y :: sorted' =>
      if str_ltb (name x) (name y) then y :: insert_by_name x sorted'
      else x :: sorted
  end.

Definition sort_by_name_reverse (backup_files : list Path) : list Path :=
  fold_right insert_by_name [] backup_files.

Definition get_all_backups_for_device (device_name : str) : list Path :=
  match backup_dir_exists env with
  | Raised _ => []
  | Returned false => []
  | Returned true =>
      match glob env (device_name ++ lit "_*.cfg") with
      | Raised _ => []
      | Returned backup_files => sort_by_name_reverse backup_files
      end
  end.

(** [comparison_result.update({'backups_compared': ...})] *)
Definition update_backups_compared (r : ResultDict) (previous latest : str) : ResultDict :=
  {| identical := identical r;
     differences_count := differences_count r;
     summary := summary r;
     differences := differences r;
     device := device r;
     config1_file := config1_file r;
     config2_file := config2_file r;
     comparison_date := comparison_date r;
     error := error r;
     backups_available := backups_available r;
     backups_compared := Some (previous, latest) |}.

(** A dictionary with the keys [error] and [device], and
    [backups_available] when given. *)
Definition error_dict (e device_name : str) (available : option nat) : ResultDict :=
  {| identical := None; differences_count := None; summary := None;
     differences := None;
     device := Some device_name;
     config1_file := None; config2_file := None; comparison_date := None;
     error := Some e;
     backups_available := available; backups_compared := None |}.

Definition compare_latest_two_backups (device_name : str) : ResultDict :=
  let backup_files := get_all_backups_for_device device_name in
  if length backup_files <? 2 then
    error_dict (lit "Insufficient backups: " ++ str_of_nat (length backup_files)
                ++ lit " found, need at least 2")
               device_name (Some (length backup_files))
  else
    match nth_error backup_files 0, nth_error backup_files 1 with
    | Some latest_backup, Some previous_backup =>
        let comparison_result :=
          compare_configs (path_str previous_backup) (path_str latest_backup)
                          device_name in
        update_backups_compared comparison_result
          (name previous_backup) (name latest_backup)
    | _, _ =>
        (* IndexError, caught by the handler of the method *)
        error_dict (lit "list index out of range") device_name None
    end.

End Checker.

End DiffChecker.

(* ================================================================== *)
(** ** The mock backup tool *)

Module MockBackup.

(** An entry of [devices.yaml]; the credentials play no part. *)
Record Device : Type := {
  name : str;
  host : str;
  device_type : str
}.

(** [{"connected": True, "device": device}] *)
Record Connection : Type := {
  connected : bool;
  conn_device : Device
}.

(** [{'name': ..., 'host': ...}], an entry of the result lists. *)
Record DeviceSummary : Type := {
  summary_name : str;
  summary_host : str
}.

Definition summary_of (device : Device) : DeviceSummary :=
  {| summary_name := name device; summary_host := host device |}.

(** The [results] dictionary of [backup_all_devices]. *)
Record FleetResults : Type := {
  success : list DeviceSummary;
  failed : list DeviceSummary;
  timestamp : str;
  total_devices : nat;
  type : str
}.

(** The [config_info] dictionary of [backup_single_device]. *)
Record ConfigInfo : Type := {
  info_device : str;
  info_filename : str;
  info_timestamp : str;
  info_size : nat;
  info_type : str
}.

(** What a file of the backup directory holds: a text, or the JSON
    document of a dictionary (kept as the dictionary). *)
Inductive FileContent : Type :=
| Text (config : str)
| JsonInfo (config_info : ConfigInfo)
| JsonResults (results : FleetResults).

(** The sources of chance and time: the successive values of
    [random.random()] and of [datetime.now()], and how many of each
    were taken. *)
Record Oracle : Type := {
  draws : nat -> Q;
  drawn : nat;
  clock : nat -> datetime;
  clock_reads : nat
}.

(** The state a run works on. *)
Record World : Type := {
  oracle : Oracle;
  files : list (str * FileContent);   (* the backup directory *)
  write_error : str -> option str     (* [str(e)] when [open(name, 'w')] raises *)
}.

Definition set_oracle (w : World) (o : Oracle) : World :=
  {| oracle := o; files := files w; write_error := write_error w |}.

(** A small state monad. *)
Definition M (S A : Type) : Type := S -> A * S.

Definition ret {S A : Type} (a : A) : M S A := fun s => (a, s).

Definition bind {S A B : Type} (m : M S A) (k : A -> M S B) : M S B :=
  fun s => let (a, s') := m s in k a s'.

Notation "x <- m ;; k" := (bind m (fun x => k))
  (at level 61, m at next level, right associativity).

(** [random.random()] *)
Definition random : M Oracle Q := fun o =>
  (draws o (drawn o),
   {| draws := draws o; drawn := S (drawn o);
      clock := clock o; clock_reads := clock_reads o |}).

(** [datetime.now()] *)
Definition datetime_now : M Oracle datetime := fun o =>
  (clock o (clock_reads o),
   {| draws := draws o; drawn := drawn o;
      clock := clock o; clock_reads := S (clock_reads o) |}).

Definition Qltb (a b : Q) : bool := negb (Qle_bool b a).

(** [random.uniform(0.5, 2.0)] draws once; [time.sleep] only waits. *)
Definition simulate_connection_delay : M Oracle unit :=
  _ <- random ;; ret tt.

(** The file [name] of the backup directory is opened for writing and
    gets [content]. *)
Definition write_file (filename : str) (content : FileContent) (w : World)
  : outcome World :=
  match write_error w filename with
  | Some e => Raised e
  | None =>
      Returned
        {| oracle := oracle w;
           files := (filename, content)
                    :: filter (fun entry => negb (str_eqb (fst entry) filename)) (files w);
           write_error := write_error w |}
  end.

Definition snapshot_filename (device_name : str) (t : datetime) : str :=
  device_name ++ lit "_" ++ strftime_Ymd_HMS t ++ lit ".cfg".

Section Tool.

(** [self.mock_configs] and [self.generate_cisco_config]: a generator
    takes the device name, may draw numbers and read the clock, and
    returns the text of a configuration. *)
Variable mock_configs : str -> option (str -> M Oracle str).
Variable generate_cisco_config : str -> M Oracle str.

Definition connect_to_device (device : Device) : M Oracle (option Connection) :=
  _ <- simulate_connection_delay ;;
  r <- random ;;
  if Qltb r (1 # 10)%Q
  then ret None  (* "Simulated connection timeout", caught *)
  else ret (Some {| connected := true; conn_device := device |}).

Definition get_device_config (connection : Connection) (device_type : str)
  : M Oracle (option str) :=
  _ <- simulate_connection_delay ;;
  let device_name := name (conn_device connection) in
  let config_generator :=
    match mock_configs device_type with
    | Some generator => generator
    | None => generate_cisco_config
    end in
  config <- config_generator device_name ;;
  r <- random ;;
  if Qltb r (5 # 100)%Q
  then ret None  (* "Simulated config retrieval error", caught *)
  else ret (Some config).

Definition backup_single_device (device : Device) (w : World) : bool * World :=
  let (connection, o1) := connect_to_device device (oracle w) in
  match connection with
  | None => (false, set_oracle w o1)
  | Some connection =>
      let (config, o2) := get_device_config connection (device_type device) o1 in
      match config with
      | None => (false, set_oracle w o2)
      | Some [] => (false, set_oracle w o2)
      | Some config =>
          let (t, o3) := datetime_now o2 in
          let filename := snapshot_filename (name device) t in
          match write_file filename (Text config) (set_oracle w o3) with
          | Raised _ => (false, set_oracle w o3)
          | Returned w4 =>
              let (t', o5) := datetime_now (oracle w4) in
              let config_info :=
                {| info_device := name device;
                   info_filename := filename;
                   info_timestamp := isoformat t';
                   info_size := length config;
                   info_type := lit "mock_backup" |} in
              match write_file (name device ++ lit "_info.json")
                               (JsonInfo config_info) (set_oracle w4 o5) with
              | Raised _ => (false, set_oracle w4 o5)
              | Returned w6 => (true, w6)
              end
          end
      end
  end.

Definition append_success (results : FleetResults) (entry : DeviceSummary) : FleetResults :=
  {| success := success results ++ [entry]; failed := failed results;
     timestamp := timestamp results; total_devices := total_devices results;
     type := type results |}.

Definition append_failed (results : FleetResults) (entry : DeviceSummary) : FleetResults :=
  {| success := success results; failed := failed results ++ [entry];
     timestamp := timestamp results; total_devices := total_devices results;
     type := type results |}.

(** [for device in self.devices: ...] *)
Fixpoint backup_loop (devices : list Device) (results : FleetResults) (w : World)
  : FleetResults * World :=
  match devices with
  | [] => (results, w)
  | device :: devices' =>
      let (ok, w') := backup_single_device device w in
      if ok
      then backup_loop devices' (append_success results (summary_of device)) w'
      else backup_loop devices' (append_failed results (summary_of device)) w'
  end.

(** [backup_all_devices], with [self.devices] as argument.  Writing
    [backup_results.json] is not guarded: when it raises, so does the
    method. *)
Definition backup_all_devices (devices : list Device) (w : World)
  : outcome FleetResults * World :=
  let (t, o1) := datetime_now (oracle w) in
  let results :=
    {| success := []; failed := [];
       timestamp := isoformat t;
       total_devices := length devices;
       type := lit "mock_backup" |} in
  let (results', w1) := backup_loop devices results (set_oracle w o1) in
  match write_file (lit "backup_results.json") (JsonResults results') w1 with
  | Raised e => (Raised e, w1)
  | Returned w2 => (Returned results', w2)
  end.

End Tool.

End MockBackup.

(* ================================================================== *)
(** ** The mock configurations *)

Module MockConfigs.

(** [str(d)] of a [datetime]: [d.isoformat(sep=' ')]. *)
Definition datetime_str (d : datetime) : str :=
  zero_pad 4 (year d) ++ lit "-" ++ zero_pad 2 (month d) ++ lit "-" ++
  zero_pad 2 (day d) ++ lit " " ++ zero_pad 2 (hour d) ++ lit ":" ++
  zero_pad 2 (minute d) ++ lit ":" ++ zero_pad 2 (second d) ++
  (if N.eqb (microsecond d) 0 then [] else lit "." ++ zero_pad 6 (microsecond d)).

(** [generate_cisco_config]: the text returned when [datetime.now()] gives
    [generated] and the two calls of [random.randint] give [octet] and
    [vlan_octet]; the lines of the template, joined by line feeds. *)
Definition generate_cisco_config (device_name : str) (generated : datetime)
    (octet vlan_octet : nat) : str :=
  join nl
    [ lit "!";
      lit "! Cisco IOS Configuration for " ++ device_name;
      lit "! Generated: " ++ datetime_str generated;
      lit "!";
      lit "version 15.2";
      lit "service timestamps debug datetime msec";
      lit "service timestamps log datetime msec";
      lit "service password-encryption";
      lit "!";
      lit "hostname " ++ device_name;
      lit "!";
      lit "boot-start-marker";
      lit "boot-end-marker";
      lit "!";
      lit "logging buffered 4096 debugging";
      lit "!";
      lit "no aaa new-model";
      lit "!";
      lit "ip cef";
      lit "!";
      lit "no ip domain lookup";
      lit "ip domain name company.local";
      lit "!";
      lit "interface GigabitEthernet0/0";
      lit " description Management Interface";
      lit " ip address 192.168.1." ++ str_of_nat octet ++ lit " 255.255.255.0";
      lit " negotiation auto";
      lit " no shutdown";
      lit "!";
      lit "interface GigabitEthernet0/1";
      lit " description Uplink to Core";
      lit " switchport mode trunk";
      lit " switchport trunk native vlan 999";
      lit " negotiation auto";
      lit " no shutdown";
      lit "!";
      lit "interface Vlan1";
      lit " ip address 10.1.1." ++ str_of_nat vlan_octet ++ lit " 255.255.255.0";
      lit "!";
      lit "line con 0";
      lit " logging synchronous";
      lit "line vty 0 4";
      lit " login local";
      lit " transport input ssh";
      lit "!";
      lit "ntp server 10.1.1.10";
      lit "!";
      lit "end";
      [] ].

(** [generate_juniper_config], likewise. *)
Definition generate_juniper_config (device_name : str) (generated : datetime)
    (octet : nat) : str :=
  join nl
    [ lit "# Juniper JunOS Configuration for " ++ device_name;
      lit "# Generated: " ++ datetime_str generated;
      [];
      lit "system {";
      lit "    host-name " ++ device_name ++ lit ";";
      lit "    root-authentication {";
      lit "        encrypted-password " ++ [0x22%N] ++ lit "$1$abc123" ++ [0x22%N] ++ lit "; ## SECRET-DATA";
      lit "    }";
      lit "    services {";
      lit "        ssh;";
      lit "        netconf {";
      lit "            ssh;";
      lit "        }";
      lit "    }";
      lit "    syslog {";
      lit "        user * {";
      lit "            any emergency;";
      lit "        }";
      lit "        file messages {";
      lit "            any notice;";
      lit "            authorization info;";
      lit "        }";
      lit "    }";
      lit "    ntp {";
      lit "        server 10.1.1.10;";
      lit "    }";
      lit "}";
      [];
      lit "interfaces {";
      lit "    ge-0/0/0 {";
      lit "        unit 0 {";
      lit "            family inet {";
      lit "                address 192.168.1." ++ str_of_nat octet ++ lit "/24;";
      lit "            }";
      lit "        }";
      lit "    }";
      lit "    ge-0/0/1 {";
      lit "        unit 0 {";
      lit "            family ethernet-switching {";
      lit "                port-mode trunk;";
      lit "                vlan {";
      lit "                    members [1-100];";
      lit "                }";
      lit "            }";
      lit "        }";
      lit "    }";
      lit "}";
      [];
      lit "protocols {";
      lit "    lldp {";
      lit "        interface all;";
      lit "    }";
      lit "}";
      [];
      lit "security {";
      lit "    zones {";
      lit "        security-zone trust {";
      lit "            interfaces {";
      lit "                ge-0/0/0.0;";
      lit "            }";
      lit "        }";
      lit "    }";
      lit "}";
      [] ].

(** [generate_arista_config], likewise. *)
Definition generate_arista_config (device_name : str) (generated : datetime)
    (octet : nat) : str :=
  join nl
    [ lit "!";
      lit "! Arista EOS Configuration for " ++ device_name;
      lit "! Generated: " ++ datetime_str generated;
      lit "!";
      lit "hostname " ++ device_name;
      lit "!";
      lit "username admin privilege 15 secret admin123";
      lit "!";
      lit "interface Management1";
      lit "   description Management Interface";
      lit "   ip address 192.168.1." ++ str_of_nat octet ++ lit "/24";
      lit "   no shutdown";
      lit "!";
      lit "interface Ethernet1";
      lit "   description Uplink to Core";
      lit "   switchport mode trunk";
      lit "   switchport trunk native vlan 999";
      lit "   no shutdown";
      lit "!";
      lit "interface Ethernet2";
      lit "   description Server Access";
      lit "   switchport access vlan 10";
      lit "   no shutdown";
      lit "!";
      lit "ip routing";
      lit "!";
      lit "vlan 10";
      lit "   name Servers";
      lit "!";
      lit "vlan 20";
      lit "   name Users";
      lit "!";
      lit "ntp server 10.1.1.10";
      lit "!";
      lit "management ssh";
      lit "   client source interface Management1";
      lit "   no shutdown";
      lit "!";
      lit "end";
      [] ].

(** [self.mock_configs.get(device_type, self.generate_cisco_config)]
    applied to the device name: the text for a device of the given
    type.  Only the Cisco generator asks for a second number. *)
Definition config_text (device_type device_name : str) (generated : datetime)
    (octet vlan_octet : nat) : str :=
  if str_eqb device_type (lit "cisco_ios")
  then generate_cisco_config device_name generated octet vlan_octet
  else if str_eqb device_type (lit "juniper_junos")
  then generate_juniper_config device_name generated octet
  else if str_eqb device_type (lit "arista_eos")
  then generate_arista_config device_name generated octet
  else generate_cisco_config device_name generated octet vlan_octet.

(** The [ignore_lines] of the settings file that
    [create_sample_settings_file] writes. *)
Definition sample_ignore_lines : list str :=
  [ lit "! Last configuration change";
    lit "! NVRAM config last updated";
    lit "!Time:" ].

End MockConfigs.

(* ================================================================== *)
(** ** The report of a comparison *)

Module DiffReport.
Import DiffChecker.

(** [d.get(key, default)] on a key of the result dictionary. *)
Definition get_or {A : Type} (value : option A) (default : A) : A :=
  match value with
  | Some a => a
  | None => default
  end.

(** The dictionary without any key. *)
Definition is_empty_dict (r : ResultDict) : bool :=
  match identical r, differences_count r, summary r, differences r, device r,
        config1_file r, config2_file r, comparison_date r, error r,
        backups_available r, backups_compared r with
  | None, None, None, None, None, None, None, None, None, None, None => true
  | _, _, _, _, _, _, _, _, _, _, _ => false
  end.

(** ["=" * 60] *)
Definition rule : str := repeat 0x3D%N 60.

(** The lines that the loop of [generate_report] appends for one
    difference. *)
Definition difference_lines (diff : DifferenceRecord) : list str :=
  [lit "Line " ++ str_of_nat (line_number diff) ++ lit ":"]
  ++ match old_value diff with
     | [] => []
     | _ => [lit "  - " ++ old_value diff]
     end
  ++ match new_value diff with
     | [] => []
     | _ => [lit "  + " ++ new_value diff]
     end
  ++ [[]].

(** [report_lines] at the end of [generate_report]. *)
Definition report_lines (comparison_result : ResultDict) : list str :=
  let lines :=
    [ rule; lit "CONFIGURATION COMPARISON REPORT"; rule;
      lit "Device: " ++ get_or (device comparison_result) (lit "Unknown");
      lit "Date: " ++ get_or (comparison_date comparison_result) (lit "Unknown");
      lit "Summary: " ++ get_or (summary comparison_result) (lit "No summary");
      [] ] in
  let lines :=
    match backups_compared comparison_result with
    | Some (previous, latest) =>
        lines ++ [ lit "Backups Compared:";
                   lit "  Previous: " ++ previous;
                   lit "  Latest: " ++ latest;
                   [] ]
    | None => lines
    end in
  let lines :=
    if get_or (identical comparison_result) false then
      lines ++ [ [0x2705%N] ++ lit " Configurations are identical - no changes detected" ]
    else
      let count := get_or (differences_count comparison_result) 0 in
      fold_left (fun lines diff => lines ++ difference_lines diff)
                (get_or (differences comparison_result) [])
                (lines ++ [ [0x1F50D%N] ++ lit " Found " ++ str_of_nat count
                            ++ lit " differences:";
                            [] ]) in
  let lines :=
    match error comparison_result with
    | Some e => lines ++ [ [0x274C%N] ++ lit " Error: " ++ e ]
    | None => lines
    end in
  lines ++ [rule].

(** [generate_report]; the argument is [None] for Python's [None]. *)
Definition generate_report (comparison_result : option ResultDict) : str :=
  match comparison_result with
  | None => lit "No comparison results available."
  | Some r =>
      if is_empty_dict r then lit "No comparison results available."
      else join nl (report_lines r)
  end.

End DiffReport.

(* ================================================================== *)
(** ** The configuration deployer *)

Module Deployer.

(** An entry of the [devices] list of the inventory file: the keys the
    deployer reads, [None] for a key that the entry does not have. *)
Record RawDevice : Type := {
  raw_name : option str;
  raw_host : option str;
  raw_device_type : option str
}.

(** [self.devices]: a dictionary from names to devices, in the order in
    which the names were first set. *)
Definition Inventory : Type := list (str * RawDevice).

(** [d[k] = v] *)
Fixpoint dict_set (k : str) (v : RawDevice) (d : Inventory) : Inventory :=
  match d with
  | [] => [(k, v)]
  | (k', v') :: d' =>
      if str_eqb k' k then (k, v) :: d' else (k', v') :: dict_set k v d'
  end.

(** [d.get(k)] *)
Fixpoint dict_get (k : str) (d : Inventory) : option RawDevice :=
  match d with
  | [] => None
  | (k', v) :: d' => if str_eqb k' k then Some v else dict_get k d'
  end.

(** [{device['name']: device for device in devices_list}], which raises
    [KeyError] at an entry without name. *)
Fixpoint build_inventory (devices_list : list RawDevice) (acc : Inventory)
  : outcome Inventory :=
  match devices_list with
  | [] => Returned acc
  | device :: devices_list' =>
      match raw_name device with
      | None => Raised (lit "'name'")
      | Some n => build_inventory devices_list' (dict_set n device acc)
      end
  end.

(** [load_devices]; [loaded] is what opening and loading the file
    gives: an exception, or the value under the key [devices], if
    any. *)
Definition load_devices (loaded : outcome (option (list RawDevice))) : Inventory :=
  match loaded with
  | Raised _ => []
  | Returned None => []
  | Returned (Some devices_list) =>
      match build_inventory devices_list [] with
      | Raised _ => []
      | Returned devices => devices
      end
  end.

(** [ConfigDeployer(devices_file)]: the inventory of the new object. *)
Definition new_deployer (devices_file : option (outcome (option (list RawDevice))))
  : Inventory :=
  match devices_file with
  | None => []
  | Some loaded => load_devices loaded
  end.

Definition find_device (devices : Inventory) (device_name : str) : option RawDevice :=
  dict_get device_name devices.

Definition get_device_list (devices : Inventory) : list str := map fst devices.

(** The dictionaries that [deploy_config] returns. *)
Record DeployResult : Type := {
  success : bool;
  message : str;
  device : str;
  config_file : option str;
  commands_count : option nat;
  commands_preview : option (list str);
  dry_run : option bool;
  commands_total : option nat;
  commands_successful : option nat;
  commands_failed : option nat;
  success_rate : option Q;  (* the exact quotient; Python rounds it to a float *)
  failed_commands : option (list str);
  commands_sent : option (list str)
}.

(** A result with the keys [success], [message], [device] and, when
    given, [config_file]. *)
Definition refusal (msg device_name : str) (file : option str) : DeployResult :=
  {| success := false; message := msg; device := device_name;
     config_file := file;
     commands_count := None; commands_preview := None; dry_run := None;
     commands_total := None; commands_successful := None; commands_failed := None;
     success_rate := None; failed_commands := None; commands_sent := None |}.

(** The files the deployer reads. *)
Record FileSystem : Type := {
  path_exists : str -> bool;       (* Path(p).exists() *)
  read_file : str -> outcome str   (* open(p, 'r').read() *)
}.

(** The condition of the comprehension of [deploy_config]. *)
Definition is_command (line : str) : bool :=
  match strip line with [] => false | _ => true end
  && negb (startswith line (lit "!"))
  && negb (startswith line (lit "#")).

(** [config_commands] *)
Definition parse_commands (config_content : str) : list str :=
  map strip (filter is_command (splitlines config_content)).

(** The loop of [simulate_deployment]. *)
Fixpoint deployment_loop (config_commands successful_commands failed_commands : list str)
  : MockBackup.M MockBackup.Oracle (list str * list str) :=
  match config_commands with
  | [] => MockBackup.ret (successful_commands, failed_commands)
  | command :: config_commands' =>
      MockBackup.bind MockBackup.random (fun r =>
        if MockBackup.Qltb r (9 # 10)%Q
        then deployment_loop config_commands' (successful_commands ++ [command])
                             failed_commands
        else deployment_loop config_commands' successful_commands
                             (failed_commands ++ [command]))
  end.

(** [simulate_deployment]; it raises when the device has no name, as
    its handler reads the name again. *)
Definition simulate_deployment (device : RawDevice) (config_commands : list str)
    (config_file : str) : MockBackup.M MockBackup.Oracle (outcome DeployResult) :=
  fun o =>
    match raw_name device with
    | None => (Raised (lit "'name'"), o)
    | Some device_name =>
        match raw_host device with
        | None =>
            (Returned (refusal (lit "Deployment simulation failed: 'host'")
                               device_name (Some config_file)), o)
        | Some _ =>
            let '(successful_commands, failed_commands, o') :=
              deployment_loop config_commands [] [] o in
            let rate :=
              match config_commands with
              | [] => 1%Q
              | _ => (Z.of_nat (length successful_commands)
                      # Pos.of_nat (length config_commands))%Q
              end in
            match failed_commands with
            | _ :: _ =>
                (Returned
                   {| success := false;
                      message := lit "Deployment partially failed: "
                                 ++ str_of_nat (length failed_commands) ++ lit "/"
                                 ++ str_of_nat (length config_commands)
                                 ++ lit " commands failed";
                      device := device_name;
                      config_file := Some config_file;
                      commands_count := None; commands_preview := None;
                      dry_run := None;
                      commands_total := Some (length config_commands);
                      commands_successful := Some (length successful_commands);
                      commands_failed := Some (length failed_commands);
                      success_rate := Some rate;
                      failed_commands := Some (firstn 10 failed_commands);
                      commands_sent := None |}, o')
            | [] =>
                (Returned
                   {| success := true;
                      message := lit "Configuration successfully deployed to "
                                 ++ device_name;
                      device := device_name;
                      config_file := Some config_file;
                      commands_count := None; commands_preview := None;
                      dry_run := None;
                      commands_total := Some (length config_commands);
                      commands_successful := Some (length successful_commands);
                      commands_failed := None;
                      success_rate := Some rate;
                      failed_commands := None;
                      commands_sent := Some (firstn 10 successful_commands) |}, o')
            end
        end
    end.

Section Deploy.

Variable fs : FileSystem.
Variable devices : Inventory.

Definition deploy_config (device_name config_file : str) (dry_run_flag : bool)
  : MockBackup.M MockBackup.Oracle DeployResult :=
  fun o =>
    match find_device devices device_name with
    | None =>
        (refusal (lit "Device '" ++ device_name ++ lit "' not found in inventory")
                 device_name None, o)
    | Some device =>
        if negb (path_exists fs config_file) then
          (refusal (lit "Config file '" ++ config_file ++ lit "' not found")
                   device_name (Some config_file), o)
        else
          match read_file fs config_file with
          | Raised e =>
              (refusal (lit "Error reading config file: " ++ e)
                       device_name (Some config_file), o)
          | Returned config_content =>
              let config_commands := parse_commands config_content in
              if dry_run_flag then
                ({| success := true;
                    message := lit "DRY-RUN: Would deploy "
                               ++ str_of_nat (length config_commands)
                               ++ lit " commands to " ++ device_name;
                    device := device_name;
                    config_file := Some config_file;
                    commands_count := Some (length config_commands);
                    commands_preview := Some (firstn 5 config_commands);
                    dry_run := Some true;
                    commands_total := None; commands_successful := None;
                    commands_failed := None; success_rate := None;
                    failed_commands := None; commands_sent := None |}, o)
              else
                match simulate_deployment device config_commands config_file o with
                | (Returned result, o') => (result, o')
                | (Raised e, o') =>
                    (refusal (lit "Deployment error: " ++ e)
                             device_name (Some config_file), o')
                end
          end
    end.

End Deploy.

End Deployer.

(* ================================================================== *)
(** ** Vocabulary of the properties *)

Module StrProps.

(** A text without line boundary. *)
Definition one_line (s : str) : Prop := Forall (fun c => is_linebreak c = false) s.

(** A line that is empty or made of whitespace only. *)
Definition is_blank (s : str) : bool := forallb is_space s.

(** [s.endswith(suffix)] *)
Definition endswith (s suffix : str) : bool := startswith (rev s) (rev suffix).

(** [splitlines(join)] gives the parts back, except a final empty one. *)
Fixpoint drop_final_empty (parts : list str) : list str :=
  match parts with
  | [] => []
  | [p] => match p with [] => [] | _ => [p] end
  | p :: ps => p :: drop_final_empty ps
  end.

(** [a <= b] as strings. *)
Definition str_le (a b : str) : Prop := str_compare a b <> Gt.

End StrProps.
Import StrProps.

Module CheckerProps.
Import DiffChecker.

(** The lines dropped by the normalizer: those whose stripped form
    starts with one of the patterns. *)
Definition dropped (patterns : list str) (line : str) : bool :=
  existsb (startswith (strip line)) patterns.

Definition nonempty (p : str) : Prop := p <> [].

(** The record of index [i] of a positional comparison, with the empty
    string for a side that has no line [i]. *)
Definition record_at (lines_a lines_b : list str) (i : nat) : DifferenceRecord :=
  {| line_number := i + 1;
     old_value := nth i lines_a [];
     new_value := nth i lines_b [] |}.

Definition differ_at (lines_a lines_b : list str) (i : nat) : bool :=
  negb (str_eqb (nth i lines_a []) (nth i lines_b [])).

(** The differences as the specification words them. *)
Definition positional_diff (lines_a lines_b : list str) : list DifferenceRecord :=
  map (record_at lines_a lines_b)
      (filter (differ_at lines_a lines_b)
              (seq 0 (Nat.max (length lines_a) (length lines_b)))).

(** An environment in which nothing can be read. *)
Definition unreadable : Env :=
  {| read_text := fun _ => Raised (lit "[Errno 2] No such file or directory");
     path_name := fun p => p;
     now := {| year := 2024; month := 1; day := 2; hour := 3; minute := 4;
               second := 5; microsecond := 0 |};
     backup_dir_exists := Returned false;
     glob := fun _ => Returned [] |}.

(** An environment in which every path holds the text it is named by;
    it serves to run the engine on given texts. *)
Definition echo : Env :=
  {| read_text := fun p => Returned p;
     path_name := fun p => p;
     now := now unreadable;
     backup_dir_exists := Returned false;
     glob := fun _ => Returned [] |}.

(** [p] may stand before [q] in a listing that has the greatest name
    first. *)
Definition name_desc (p q : Path) : Prop := str_le (name q) (name p).

Definition snapshot (dir_name file_name : String.string) : Path :=
  {| path_str := lit dir_name ++ lit "/" ++ lit file_name; name := lit file_name |}.

(** A backup directory with three snapshots of [core-switch-01] and one
    of another device, listed in no particular order. *)
Definition three_backups : Env :=
  {| read_text := fun _ => Returned (lit "mock config content");
     path_name := fun p => p;
     now := {| year := 2024; month := 1; day := 4; hour := 0; minute := 0;
               second := 0; microsecond := 0 |};
     backup_dir_exists := Returned true;
     glob := fun pattern =>
       if str_eqb pattern (lit "core-switch-01_*.cfg")
       then Returned [ snapshot "backups" "core-switch-01_20240101_120000.cfg";
                       snapshot "backups" "core-switch-01_20240103_120000.cfg";
                       snapshot "backups" "core-switch-01_20240102_120000.cfg" ]
       else if str_eqb pattern (lit "other-switch-01_*.cfg")
       then Returned [ snapshot "backups" "other-switch-01_20240101_120000.cfg" ]
       else Returned [] |}.

Definition noon (y m d : N) : datetime :=
  {| year := y; month := m; day := d; hour := 12; minute := 0; second := 0;
     microsecond := 0 |}.

End CheckerProps.

Module FleetProps.
Import MockBackup.

(** A generator that returns an empty configuration. *)
Definition blank_config (device_name : str) : M Oracle str := ret [].

Definition hostname_config (device_name : str) : M Oracle str :=
  ret (lit "hostname " ++ device_name).

(** Only the device type [blank_os] has the blank generator. *)
Definition blank_configs (device_type : str) : option (str -> M Oracle str) :=
  if str_eqb device_type (lit "blank_os") then Some blank_config else None.

(** A world in which no connection and no retrieval fails (every draw
    is one half), it is always noon, and every file can be written. *)
Definition calm : World :=
  {| oracle := {| draws := fun _ => (1 # 2)%Q; drawn := 0;
                  clock := fun _ => {| year := 2024; month := 1; day := 2;
                                       hour := 12; minute := 0; second := 0;
                                       microsecond := 0 |};
                  clock_reads := 0 |};
     files := [];
     write_error := fun _ => None |}.

(** The oracle of [w] once [k] numbers were drawn. *)
Definition after_draws (k : nat) (w : World) : Oracle :=
  {| draws := draws (oracle w); drawn := k;
     clock := clock (oracle w); clock_reads := clock_reads (oracle w) |}.

Definition blank_device : Device :=
  {| name := lit "edge-01"; host := lit "192.168.1.20"; device_type := lit "blank_os" |}.

Definition cisco_device : Device :=
  {| name := lit "core-switch-01"; host := lit "192.168.1.10";
     device_type := lit "cisco_ios" |}.

End FleetProps.

Module MoreProps.
Import DiffChecker.

(** A difference seen from the other side. *)
Definition swap_sides (r : DifferenceRecord) : DifferenceRecord :=
  {| line_number := line_number r;
     old_value := new_value r;
     new_value := old_value r |}.

(** The line feed is the only line boundary of [s]. *)
Definition only_line_feeds (s : str) : Prop :=
  Forall (fun c => is_linebreak c = true -> c = 0x0A%N) s.


End MoreProps.

Module FleetMoreProps.
Import MockBackup.

(** What the backup directory holds under [filename]. *)
Fixpoint file_content (filename : str) (fs : list (str * FileContent))
  : option FileContent :=
  match fs with
  | [] => None
  | (n, c) :: fs' => if str_eqb n filename then Some c else file_content filename fs'
  end.

(** The names of the files of the backup directory. *)
Definition file_names (w : World) : list str := map fst (files w).

(** A world in which nothing can be written. *)
Definition read_only (w : World) : World :=
  {| oracle := oracle w; files := files w;
     write_error := fun _ => Some (lit "[Errno 30] Read-only file system") |}.


End FleetMoreProps.

Module DeployerProps.
Import Deployer.

Definition has_name (device : RawDevice) : Prop := raw_name device <> None.

Definition named (n : str) (device : RawDevice) : bool :=
  match raw_name device with
  | Some m => str_eqb m n
  | None => false
  end.

(** The last entry of the list that has the name [n]. *)
Fixpoint last_named (n : str) (devices_list : list RawDevice) : option RawDevice :=
  match devices_list with
  | [] => None
  | device :: devices_list' =>
      match last_named n devices_list' with
      | Some later => Some later
      | None => if named n device then Some device else None
      end
  end.

(** Every entry of [d] is filed under its own name. *)
Definition well_keyed (d : Inventory) : Prop :=
  forall k v, In (k, v) d -> raw_name v = Some k.

Definition switch (n h : String.string) : RawDevice :=
  {| raw_name := Some (lit n); raw_host := Some (lit h);
     raw_device_type := Some (lit "cisco_ios") |}.

(** A file system with the one file [update.cfg]. *)
Definition one_file (content : str) : FileSystem :=
  {| path_exists := fun p => str_eqb p (lit "update.cfg");
     read_file := fun p =>
       if str_eqb p (lit "update.cfg") then Returned content
       else Raised (lit "[Errno 2] No such file or directory") |}.

End DeployerProps.

Module ConfigsProps.
Import DiffChecker MockConfigs.

(** The two lines of a Cisco configuration that hold a number. *)
Definition management_line (octet : nat) : str :=
  lit " ip address 192.168.1." ++ str_of_nat octet ++ lit " 255.255.255.0".

Definition vlan_line (vlan_octet : nat) : str :=
  lit " ip address 10.1.1." ++ str_of_nat vlan_octet ++ lit " 255.255.255.0".

(** The lines of a Cisco configuration that are no comments: those
    before the first line with a number, those between the two such
    lines, and those after the second. *)
Definition cisco_head (device_name : str) : list str :=
  [ lit "version 15.2";
    lit "service timestamps debug datetime msec";
    lit "service timestamps log datetime msec";
    lit "service password-encryption";
    lit "hostname " ++ device_name;
    lit "boot-start-marker";
    lit "boot-end-marker";
    lit "logging buffered 4096 debugging";
    lit "no aaa new-model";
    lit "ip cef";
    lit "no ip domain lookup";
    lit "ip domain name company.local";
    lit "interface GigabitEthernet0/0";
    lit " description Management Interface" ].

Definition cisco_middle : list str :=
  [ lit " negotiation auto";
    lit " no shutdown";
    lit "interface GigabitEthernet0/1";
    lit " description Uplink to Core";
    lit " switchport mode trunk";
    lit " switchport trunk native vlan 999";
    lit " negotiation auto";
    lit " no shutdown";
    lit "interface Vlan1" ].

Definition cisco_tail : list str :=
  [ lit "line con 0";
    lit " logging synchronous";
    lit "line vty 0 4";
    lit " login local";
    lit " transport input ssh";
    lit "ntp server 10.1.1.10";
    lit "end" ].

Definition cisco_kept_lines (device_name : str) (octet vlan_octet : nat) : list str :=
  cisco_head device_name
  ++ management_line octet :: cisco_middle
  ++ vlan_line vlan_octet :: cisco_tail.

(** A record moved down by [k] lines. *)
Definition shift_by (k : nat) (r : DifferenceRecord) : DifferenceRecord :=
  {| line_number := k + line_number r;
     old_value := old_value r;
     new_value := new_value r |}.

(** The differences that two Cisco configurations of one device can
    show: the management address on line 15 and the address of Vlan1 on
    line 25 of the compared text. *)
Definition cisco_differences (octet vlan_octet octet' vlan_octet' : nat)
    : list DifferenceRecord :=
  (if Nat.eqb octet octet' then []
   else [{| line_number := 15;
            old_value := management_line octet;
            new_value := management_line octet' |}])
  ++ (if Nat.eqb vlan_octet vlan_octet' then []
      else [{| line_number := 25;
               old_value := vlan_line vlan_octet;
               new_value := vlan_line vlan_octet' |}]).

End ConfigsProps.

(* ================================================================== *)
(** ** Facts about strings *)

Module PyStrFacts.

Lemma rev_case {A : Type} (l : list A) :
  l = [] \/ exists l' a, l = l' ++ [a].
Proof.
  induction l as [|a l' _] using rev_ind; [now left | right; eauto].
Qed.

Lemma match_snoc {A B : Type} (l : list A) (c : A) (x y : B) :
  match l ++ [c] with [] => x | _ :: _ => y end = y.
Proof. destruct l; reflexivity. Qed.

Lemma chr_eqb_eq (a b : N) : chr_eqb a b = true <-> a = b.
Proof. unfold chr_eqb. apply N.eqb_eq. Qed.

Lemma str_eqb_eq (a b : str) : str_eqb a b = true <-> a = b.
Proof.
  revert b. induction a as [|x a IH]; intros [|y b]; simpl; split;
    try congruence; try reflexivity.
  - intros H. apply andb_true_iff in H. destruct H as [H1 H2].
    apply chr_eqb_eq in H1. apply IH in H2. congruence.
  - intros H. injection H as -> ->. apply andb_true_iff. split.
    + now apply chr_eqb_eq.
    + now apply IH.
Qed.

Lemma str_eqb_refl (a : str) : str_eqb a a = true.
Proof. now apply str_eqb_eq. Qed.

Lemma str_eqb_neq (a b : str) : str_eqb a b = false <-> a <> b.
Proof.
  split.
  - intros H E. apply str_eqb_eq in E. congruence.
  - intros H. destruct (str_eqb a b) eqn:E; [|reflexivity].
    apply str_eqb_eq in E. contradiction.
Qed.

Lemma splitlines_from_one_line (l : str) :
  one_line l ->
  forall cur, splitlines_from cur l = match cur ++ l with [] => [] | _ => [cur ++ l] end.
Proof.
  induction 1 as [|c l Hc Hl IH]; intros cur.
  - simpl. rewrite app_nil_r. reflexivity.
  - simpl. rewrite Hc. rewrite IH. rewrite <- app_assoc. reflexivity.
Qed.

Lemma splitlines_from_newline (l : str) :
  one_line l ->
  forall cur s, splitlines_from cur (l ++ nl ++ s) = (cur ++ l) :: splitlines_from [] s.
Proof.
  change nl with [10%N]. simpl app.
  induction 1 as [|c l Hc Hl IH]; intros cur s.
  - simpl. rewrite app_nil_r. destruct s; reflexivity.
  - simpl. rewrite Hc. rewrite IH. rewrite <- app_assoc. reflexivity.
Qed.

(** The lines of [splitlines] hold no line boundary. *)
Lemma splitlines_from_lines (n : nat) :
  forall s cur, length s <= n -> one_line cur -> Forall one_line (splitlines_from cur s).
Proof.
  induction n as [|n IH]; intros s cur Hn Hcur.
  - destruct s; [|simpl in Hn; lia]. simpl. destruct cur; auto.
  - destruct s as [|c rest].
    + simpl. destruct cur; auto.
    + simpl in Hn. simpl. destruct (is_linebreak c) eqn:Hc.
      * constructor; [assumption|].
        destruct rest as [|c' rest'].
        -- simpl. constructor.
        -- destruct (N.eqb c 13 && N.eqb c' 10).
           ++ apply IH; [simpl in Hn; lia | constructor].
           ++ apply IH; [lia | constructor].
      * apply IH; [lia|]. apply Forall_app. split; [assumption|].
        constructor; [assumption | constructor].
Qed.

Lemma splitlines_lines (s : str) : Forall one_line (splitlines s).
Proof. apply (splitlines_from_lines (length s)); [lia | constructor]. Qed.

Lemma splitlines_join (parts : list str) :
  Forall one_line parts -> splitlines (join nl parts) = drop_final_empty parts.
Proof.
  unfold splitlines.
  induction 1 as [|p ps Hp Hps IH].
  - reflexivity.
  - destruct ps as [|q ps'].
    + simpl. rewrite (splitlines_from_one_line p Hp). reflexivity.
    + change (join nl (p :: q :: ps')) with (p ++ nl ++ join nl (q :: ps')).
      rewrite (splitlines_from_newline p Hp). rewrite IH. reflexivity.
Qed.

Lemma join_snoc (sep : str) (parts : list str) (p : str) :
  parts <> [] -> join sep (parts ++ [p]) = join sep parts ++ sep ++ p.
Proof.
  induction parts as [|q qs IH]; intros Hne; [contradiction|].
  destruct qs as [|q' qs'].
  - reflexivity.
  - change (join sep ((q :: q' :: qs') ++ [p]))
      with (q ++ sep ++ join sep ((q' :: qs') ++ [p])).
    rewrite IH by discriminate.
    change (join sep (q :: q' :: qs')) with (q ++ sep ++ join sep (q' :: qs')).
    now rewrite <- !app_assoc.
Qed.

Lemma drop_final_empty_snoc (parts : list str) (p : str) :
  drop_final_empty (parts ++ [p]) = match p with [] => parts | _ => parts ++ [p] end.
Proof.
  induction parts as [|q qs IH].
  - simpl. destruct p; reflexivity.
  - destruct qs as [|q' qs'].
    + simpl. destruct p; reflexivity.
    + change (drop_final_empty ((q :: q' :: qs') ++ [p]))
        with (q :: drop_final_empty ((q' :: qs') ++ [p])).
      rewrite IH. destruct p; reflexivity.
Qed.

Lemma endswith_snoc (s : str) (c : N) :
  endswith (s ++ [c]) nl = chr_eqb c 10.
Proof.
  unfold endswith. rewrite rev_app_distr. simpl.
  destruct (rev s); apply andb_true_r.
Qed.

Lemma lstrip_blank (s : str) : is_blank s = true -> lstrip s = [].
Proof.
  induction s as [|c s IH]; simpl; [reflexivity|].
  intros H. apply andb_true_iff in H. destruct H as [Hc Hs].
  rewrite Hc. now apply IH.
Qed.

Lemma strip_blank (s : str) : is_blank s = true -> strip s = [].
Proof. intros H. unfold strip. now rewrite lstrip_blank. Qed.

Lemma startswith_nil (p : str) : p <> [] -> startswith [] p = false.
Proof. destruct p; [contradiction | reflexivity]. Qed.

End PyStrFacts.
Import PyStrFacts.

(* ================================================================== *)
(** ** The text normalizer *)

Module NormalizerSpec.
Import DiffChecker CheckerProps.

Lemma ignore_line_loop_dropped (patterns : list str) (line : str) :
  ignore_line_loop patterns line = dropped patterns line.
Proof.
  unfold dropped. induction patterns as [|p ps IH]; simpl; [reflexivity|].
  destruct (startswith (strip line) p); [reflexivity | exact IH].
Qed.

Lemma filter_loop_filter (patterns : list str) (lines acc : list str) :
  filter_loop patterns lines acc
  = acc ++ filter (fun line => negb (dropped patterns line)) lines.
Proof.
  revert acc. induction lines as [|l ls IH]; intros acc; simpl.
  - now rewrite app_nil_r.
  - rewrite ignore_line_loop_dropped. destruct (dropped patterns l); simpl.
    + apply IH.
    + rewrite IH. now rewrite <- app_assoc.
Qed.

Lemma filtered_lines_filter (patterns : list str) (text : str) :
  filtered_lines patterns text
  = filter (fun line => negb (dropped patterns line)) (splitlines text).
Proof. unfold filtered_lines. now rewrite filter_loop_filter. Qed.

Lemma filter_ignored_lines_join (patterns : list str) (text : str) :
  filter_ignored_lines patterns text = join nl (filtered_lines patterns text).
Proof. destruct text; reflexivity. Qed.

Lemma dropped_Permutation (ps qs : list str) (line : str) :
  Permutation ps qs -> dropped ps line = dropped qs line.
Proof.
  unfold dropped. induction 1; simpl.
  - reflexivity.
  - now rewrite IHPermutation.
  - rewrite !orb_assoc. f_equal. apply orb_comm.
  - congruence.
Qed.

Lemma filter_ext_dropped (ps qs : list str) (lines : list str) :
  (forall line, dropped ps line = dropped qs line) ->
  filter (fun line => negb (dropped ps line)) lines
  = filter (fun line => negb (dropped qs line)) lines.
Proof. intros H. apply filter_ext. intros l. now rewrite H. Qed.

Lemma blank_not_dropped (patterns : list str) (line : str) :
  Forall nonempty patterns -> is_blank line = true -> dropped patterns line = false.
Proof.
  intros Hne Hb. unfold dropped. rewrite (strip_blank line Hb).
  induction Hne as [|p ps Hp _ IH]; cbn [existsb]; [reflexivity|].
  rewrite (startswith_nil p Hp). exact IH.
Qed.

Lemma default_patterns_nonempty : Forall nonempty default_patterns.
Proof. repeat constructor; discriminate. Qed.

Lemma filter_all (A : Type) (f : A -> bool) (l : list A) :
  Forall (fun x => f x = true) l -> filter f l = l.
Proof.
  induction 1 as [|x l Hx _ IH]; simpl; [reflexivity|]. now rewrite Hx, IH.
Qed.

Lemma Forall_drop_final_empty (Q : str -> Prop) (parts : list str) :
  Forall Q parts -> Forall Q (drop_final_empty parts).
Proof.
  induction 1 as [|p ps Hp Hps IH]; [constructor|].
  destruct ps as [|q ps'].
  - simpl. destruct p; auto.
  - change (drop_final_empty (p :: q :: ps')) with (p :: drop_final_empty (q :: ps')).
    now constructor.
Qed.

Lemma filtered_lines_one_line (patterns : list str) (text : str) :
  Forall one_line (filtered_lines patterns text).
Proof.
  rewrite filtered_lines_filter. apply Forall_forall. intros l Hl.
  apply filter_In in Hl. destruct Hl as [Hl _].
  pose proof (splitlines_lines text) as H.
  rewrite Forall_forall in H. now apply H.
Qed.

Lemma filtered_lines_kept (patterns : list str) (text : str) :
  Forall (fun line => negb (dropped patterns line) = true) (filtered_lines patterns text).
Proof.
  rewrite filtered_lines_filter. apply Forall_forall. intros l Hl.
  apply filter_In in Hl. now destruct Hl.
Qed.

(** Filtering a second time: the lines kept the first time are kept
    again, but a final empty line is lost when the text is split. *)
Lemma filter_twice (patterns : list str) (text : str) :
  filter_ignored_lines patterns (filter_ignored_lines patterns text)
  = join nl (drop_final_empty (filtered_lines patterns text)).
Proof.
  rewrite (filter_ignored_lines_join patterns text).
  rewrite filter_ignored_lines_join. f_equal.
  rewrite filtered_lines_filter.
  rewrite splitlines_join by apply filtered_lines_one_line.
  apply filter_all. apply Forall_drop_final_empty. apply filtered_lines_kept.
Qed.

Lemma one_line_last_not_newline (l : str) (c : N) :
  one_line (l ++ [c]) -> chr_eqb c 10 = false.
Proof.
  intros H. apply Forall_app in H. destruct H as [_ H].
  inversion H as [|? ? Hc _]; subst.
  unfold chr_eqb. destruct (N.eqb c 10) eqn:E; [|reflexivity].
  apply N.eqb_eq in E. subst c. discriminate Hc.
Qed.

Lemma join_drop_final_empty (parts : list str) :
  Forall one_line parts ->
  join nl (drop_final_empty parts) = join nl parts <-> endswith (join nl parts) nl = false.
Proof.
  intros Hparts.
  destruct (rev_case parts) as [-> | [ps [p ->]]].
  - simpl. split; reflexivity.
  - rewrite drop_final_empty_snoc.
    apply Forall_app in Hparts. destruct Hparts as [_ Hp].
    apply Forall_inv in Hp.
    destruct ps as [|q qs].
    + (* a single line *)
      simpl. destruct (rev_case p) as [-> | [p0 [c ->]]].
      * split; reflexivity.
      * rewrite match_snoc, endswith_snoc.
        split; [intros _ | reflexivity].
        now apply (one_line_last_not_newline p0 c).
    + rewrite join_snoc by discriminate.
      destruct (rev_case p) as [-> | [p0 [c ->]]].
      * (* the last line is empty, and not the only one *)
        rewrite app_nil_r.
        change (join nl (q :: qs) ++ nl) with (join nl (q :: qs) ++ [10%N]).
        rewrite endswith_snoc.
        split; [|discriminate].
        intros H. apply (f_equal (@length N)) in H.
        rewrite length_app in H. simpl in H. lia.
      * rewrite match_snoc.
        rewrite join_snoc by discriminate.
        replace (join nl (q :: qs) ++ nl ++ p0 ++ [c])
          with ((join nl (q :: qs) ++ nl ++ p0) ++ [c])
          by now rewrite <- !app_assoc.
        rewrite endswith_snoc.
        split; [intros _ | reflexivity].
        now apply (one_line_last_not_newline p0 c).
Qed.

(** C8: the normalizer drops exactly the lines whose stripped form
    starts with one of the patterns and keeps the other lines as they
    are, joined by line feeds; hence its output is the same for any
    permutation of the pattern list. *)
Theorem filter_drops_prefixed_lines (patterns patterns' : list str) (text : str) :
  Permutation patterns patterns' ->
  filter_ignored_lines patterns text
  = join nl (filter (fun line => negb (existsb (startswith (strip line)) patterns))
                    (splitlines text))
  /\ filter_ignored_lines patterns' text = filter_ignored_lines patterns text.
Proof.
  intros Hperm. split.
  - rewrite filter_ignored_lines_join, filtered_lines_filter. reflexivity.
  - rewrite !filter_ignored_lines_join, !filtered_lines_filter. f_equal.
    apply filter_ext_dropped. intros line. symmetry.
    now apply dropped_Permutation.
Qed.

Lemma filter_drops_prefixed_lines_witness :
  Permutation default_patterns (rev default_patterns) /\
  filter_ignored_lines (rev default_patterns) (lit "!x" ++ nl ++ lit " #y" ++ nl ++ lit "end")
  = filter_ignored_lines default_patterns (lit "!x" ++ nl ++ lit " #y" ++ nl ++ lit "end").
Proof.
  split.
  - apply Permutation_rev.
  - apply (filter_drops_prefixed_lines default_patterns (rev default_patterns)).
    apply Permutation_rev.
Defined.

(** C10: when no pattern is the empty string, the normalizer keeps
    every line that is empty or made of whitespace only: such a line of
    the text is among the lines kept, and the blank lines kept are the
    blank lines of the text, in order. *)
Theorem filter_keeps_blank_lines (patterns : list str) (text : str) :
  Forall nonempty patterns ->
  (forall line, In line (splitlines text) -> is_blank line = true ->
                In line (filtered_lines patterns text))
  /\ filter is_blank (filtered_lines patterns text) = filter is_blank (splitlines text).
Proof.
  intros Hne. rewrite filtered_lines_filter. split.
  - intros line Hin Hb. apply filter_In. split; [assumption|].
    now rewrite blank_not_dropped.
  - induction (splitlines text) as [|l ls IH]; simpl; [reflexivity|].
    destruct (is_blank l) eqn:Hb.
    + rewrite blank_not_dropped by assumption. simpl. rewrite Hb. now rewrite IH.
    + destruct (dropped patterns l); simpl; [exact IH|]. rewrite Hb. exact IH.
Qed.

(** The default patterns are not empty, and the blank lines of a text
    survive them. *)
Lemma filter_keeps_blank_lines_witness :
  Forall nonempty default_patterns /\
  filter is_blank (filtered_lines default_patterns (lit "a" ++ nl ++ lit "  " ++ nl ++ nl ++ lit "b"))
  = filter is_blank (splitlines (lit "a" ++ nl ++ lit "  " ++ nl ++ nl ++ lit "b")).
Proof.
  split.
  - exact default_patterns_nonempty.
  - apply (filter_keeps_blank_lines default_patterns).
    exact default_patterns_nonempty.
Defined.

(** C4, as the code has it: filtering twice gives the same text as
    filtering once exactly when the filtered text does not end with a
    line feed, that is, when the last line kept is not an empty line
    that follows another kept line. *)
Theorem filter_idempotent_iff (patterns : list str) (text : str) :
  filter_ignored_lines patterns (filter_ignored_lines patterns text)
  = filter_ignored_lines patterns text
  <-> endswith (filter_ignored_lines patterns text) nl = false.
Proof.
  rewrite filter_twice. rewrite filter_ignored_lines_join.
  apply join_drop_final_empty. apply filtered_lines_one_line.
Qed.

Lemma filter_idempotent_iff_witness :
  endswith (filter_ignored_lines default_patterns (lit "!" ++ nl ++ lit "a" ++ nl)) nl = false /\
  filter_ignored_lines default_patterns
    (filter_ignored_lines default_patterns (lit "!" ++ nl ++ lit "a" ++ nl))
  = filter_ignored_lines default_patterns (lit "!" ++ nl ++ lit "a" ++ nl).
Proof.
  split.
  - reflexivity.
  - apply (proj2 (filter_idempotent_iff default_patterns (lit "!" ++ nl ++ lit "a" ++ nl))).
    reflexivity.
Defined.

(** C4 as stated fails: a kept empty line at the end of the text is
    lost by the second pass.  The text is ["a\n\n"]: the first pass
    gives ["a\n"], the second ["a"]. *)
Lemma filter_not_idempotent :
  filter_ignored_lines default_patterns
    (filter_ignored_lines default_patterns (lit "a" ++ nl ++ nl))
  <> filter_ignored_lines default_patterns (lit "a" ++ nl ++ nl).
Proof. vm_compute. discriminate. Qed.

End NormalizerSpec.

(* ================================================================== *)
(** ** The diff engine *)

Module DiffSpec.
Import DiffChecker CheckerProps.

Lemma line_at_nth (lines : list str) (i : nat) : line_at lines i = nth i lines [].
Proof.
  unfold line_at. destruct (i <? length lines) eqn:E; [reflexivity|].
  apply Nat.ltb_ge in E. symmetry. now apply nth_overflow.
Qed.

Lemma compare_step_spec (lines_a lines_b : list str) (acc : list DifferenceRecord) (i : nat) :
  compare_step lines_a lines_b acc i
  = acc ++ (if differ_at lines_a lines_b i then [record_at lines_a lines_b i] else []).
Proof.
  unfold compare_step, differ_at, record_at. rewrite !line_at_nth.
  destruct (negb _); [reflexivity | now rewrite app_nil_r].
Qed.

Lemma compare_fold (lines_a lines_b : list str) (idxs : list nat) :
  forall acc,
    fold_left (compare_step lines_a lines_b) idxs acc
    = acc ++ map (record_at lines_a lines_b) (filter (differ_at lines_a lines_b) idxs).
Proof.
  induction idxs as [|i idxs IH]; intros acc; simpl.
  - now rewrite app_nil_r.
  - rewrite IH, compare_step_spec.
    destruct (differ_at lines_a lines_b i); simpl.
    + now rewrite <- app_assoc.
    + now rewrite app_nil_r.
Qed.

Lemma compare_lines_positional (lines_a lines_b : list str) :
  compare_lines lines_a lines_b = positional_diff lines_a lines_b.
Proof. unfold compare_lines. now rewrite compare_fold. Qed.

Lemma differ_at_neq (lines_a lines_b : list str) (i : nat) :
  differ_at lines_a lines_b i = true <-> nth i lines_a [] <> nth i lines_b [].
Proof.
  unfold differ_at. rewrite negb_true_iff. apply str_eqb_neq.
Qed.

Lemma positional_diff_In (lines_a lines_b : list str) (r : DifferenceRecord) :
  In r (positional_diff lines_a lines_b) <->
  exists i, i < Nat.max (length lines_a) (length lines_b)
            /\ nth i lines_a [] <> nth i lines_b []
            /\ r = record_at lines_a lines_b i.
Proof.
  unfold positional_diff. rewrite in_map_iff. split.
  - intros [i [Hr Hi]]. apply filter_In in Hi. destruct Hi as [Hseq Hd].
    apply in_seq in Hseq. apply differ_at_neq in Hd.
    exists i. repeat split; [lia | assumption | now symmetry].
  - intros [i [Hlt [Hd Hr]]]. exists i. split; [now symmetry|].
    apply filter_In. split; [apply in_seq; lia | now apply differ_at_neq].
Qed.

Lemma NoDup_map_succ (l : list nat) : NoDup l -> NoDup (map (fun i => i + 1) l).
Proof.
  induction 1 as [|x l Hx Hl IH]; simpl; constructor; [|exact IH].
  intros Hin. apply in_map_iff in Hin. destruct Hin as [y [Hy Hin]].
  assert (y = x) by lia. subst y. contradiction.
Qed.

Lemma positional_diff_line_numbers (lines_a lines_b : list str) :
  NoDup (map line_number (positional_diff lines_a lines_b)).
Proof.
  unfold positional_diff. rewrite map_map. simpl.
  apply NoDup_map_succ. apply NoDup_filter. apply seq_NoDup.
Qed.

Lemma filter_none (A : Type) (f : A -> bool) (l : list A) :
  (forall x, In x l -> f x = false) -> filter f l = [].
Proof.
  induction l as [|x l IH]; intros H; simpl; [reflexivity|].
  rewrite (H x) by now left. apply IH. intros y Hy. apply H. now right.
Qed.

(** One more line at the end of the second sequence: it is reported,
    unless it is the empty string, which is also what stands for the
    missing line of the first sequence. *)
Lemma positional_diff_extra_line (lines : list str) (extra : str) :
  positional_diff lines (lines ++ [extra])
  = match extra with
    | [] => []
    | _ => [{| line_number := length lines + 1; old_value := []; new_value := extra |}]
    end.
Proof.
  unfold positional_diff. rewrite length_app. simpl length.
  replace (Nat.max (length lines) (length lines + 1)) with (length lines + 1) by lia.
  rewrite seq_app, filter_app. simpl seq.
  rewrite filter_none.
  - assert (Hd : differ_at lines (lines ++ [extra]) (length lines)
                 = negb (str_eqb [] extra)).
    { unfold differ_at. rewrite (nth_overflow lines) by lia.
      now rewrite nth_middle. }
    cbn [app filter Nat.add]. rewrite Hd.
    destruct extra as [|c extra]; [reflexivity|].
    cbn [str_eqb negb map]. unfold record_at.
    rewrite (nth_overflow lines) by lia. now rewrite nth_middle.
  - intros i Hi. apply in_seq in Hi. unfold differ_at.
    rewrite app_nth1 by lia. now rewrite str_eqb_refl.
Qed.

(** C2, as the code has it: the differences of two texts are, for the
    two sequences of lines got by normalizing and splitting, exactly
    one record [{line_number: i+1, old_value, new_value}] for each index
    [i] below the greater length at which the lines differ, with the
    empty string for a side that has no such line, in the order of the
    indices.  When the second sequence is the first plus one line, that
    line gives one record with the empty string as old value, unless
    the line is itself the empty string: then there is no record. *)
Theorem compare_records_differing_lines
    (env : Env) (patterns : list str) (text_a text_b path_a path_b device_name : str) :
  let lines_a := splitlines (filter_ignored_lines patterns text_a) in
  let lines_b := splitlines (filter_ignored_lines patterns text_b) in
  let n := Nat.max (length lines_a) (length lines_b) in
  exists diffs,
    differences (compare_texts env patterns text_a text_b path_a path_b device_name)
    = Some diffs
    /\ diffs = map (fun i => {| line_number := i + 1;
                                old_value := nth i lines_a [];
                                new_value := nth i lines_b [] |})
                   (filter (fun i => negb (str_eqb (nth i lines_a []) (nth i lines_b [])))
                           (seq 0 n))
    /\ (forall r, In r diffs <->
                  exists i, i < n /\ nth i lines_a [] <> nth i lines_b []
                            /\ r = {| line_number := i + 1;
                                      old_value := nth i lines_a [];
                                      new_value := nth i lines_b [] |})
    /\ NoDup (map line_number diffs)
    /\ (forall extra, lines_b = lines_a ++ [extra] ->
          diffs = match extra with
                  | [] => []
                  | _ => [{| line_number := length lines_a + 1;
                             old_value := []; new_value := extra |}]
                  end).
Proof.
  intros lines_a lines_b n.
  exists (positional_diff lines_a lines_b).
  split; [|split; [|split; [|split]]].
  - unfold compare_texts. simpl. now rewrite compare_lines_positional.
  - reflexivity.
  - apply positional_diff_In.
  - apply positional_diff_line_numbers.
  - intros extra E. rewrite E. apply positional_diff_extra_line.
Qed.

(** The tail insertion of the specification: ["a\nb"] against
    ["a\nb\nc"] gives the one record [{3, "", "c"}]. *)
Lemma compare_records_differing_lines_witness :
  differences (compare_texts echo default_patterns
                 (lit "a" ++ nl ++ lit "b") (lit "a" ++ nl ++ lit "b" ++ nl ++ lit "c")
                 (lit "old.cfg") (lit "new.cfg") (lit "sw1"))
  = Some [{| line_number := 3; old_value := []; new_value := lit "c" |}].
Proof.
  destruct (compare_records_differing_lines echo default_patterns
              (lit "a" ++ nl ++ lit "b") (lit "a" ++ nl ++ lit "b" ++ nl ++ lit "c")
              (lit "old.cfg") (lit "new.cfg") (lit "sw1"))
    as [diffs [Hd [_ [_ [_ Hextra]]]]].
  rewrite Hd. f_equal. apply (Hextra (lit "c")). reflexivity.
Defined.

(** C2 as stated fails on its last part, for an extra line that is
    empty.  With the texts ["a"] and ["a\n\n\n"] the second sequence of
    normalized lines is the first plus one empty line, and no record is
    produced.  With ["a"] and ["a\n\n"] the second text itself has one
    more (empty) line, which normalizing drops: again no record. *)
Lemma extra_empty_line_gives_no_record :
  (splitlines (filter_ignored_lines default_patterns (lit "a" ++ nl ++ nl ++ nl))
   = splitlines (filter_ignored_lines default_patterns (lit "a")) ++ [[]]
   /\ differences (compare_texts echo default_patterns
                     (lit "a") (lit "a" ++ nl ++ nl ++ nl)
                     (lit "old.cfg") (lit "new.cfg") (lit "sw1"))
      = Some [])
  /\ (splitlines (lit "a" ++ nl ++ nl) = splitlines (lit "a") ++ [[]]
      /\ differences (compare_texts echo default_patterns
                        (lit "a") (lit "a" ++ nl ++ nl)
                        (lit "old.cfg") (lit "new.cfg") (lit "sw1"))
         = Some []).
Proof. repeat split. Qed.

(** C1, as the code has it: in every result of [compare_configs] the
    keys [identical] and [differences] are set, and [identical] is true
    exactly when [differences] is empty and the result has no [error]
    key. *)
Theorem identical_iff_no_differences_no_error
    (env : Env) (patterns : list str) (config1_path config2_path device_name : str) :
  let r := compare_configs env patterns config1_path config2_path device_name in
  exists (b : bool) (diffs : list DifferenceRecord),
    identical r = Some b /\ differences r = Some diffs
    /\ (b = true <-> diffs = [] /\ error r = None).
Proof.
  intros r. subst r. unfold compare_configs.
  destruct (read_text env config1_path) as [c1|e1].
  - destruct (read_text env config2_path) as [c2|e2].
    + unfold compare_texts. simpl.
      eexists. eexists. split; [reflexivity|]. split; [reflexivity|].
      rewrite Nat.eqb_eq. rewrite length_zero_iff_nil. tauto.
    + exists false, []. simpl. repeat split; try discriminate.
      intros [_ H]. discriminate H.
    - exists false, []. simpl. repeat split; try discriminate.
      intros [_ H]. discriminate H.
Qed.

(** C1 as stated fails: when the files cannot be read, the result has
    [identical] false and [differences] empty. *)
Lemma identical_false_with_no_differences :
  let r := compare_configs unreadable default_patterns
             (lit "backups/sw1_20240101_120000.cfg")
             (lit "backups/sw1_20240102_120000.cfg") (lit "sw1") in
  identical r = Some false /\ differences r = Some [].
Proof. split; reflexivity. Qed.

(** C5: when reading one of the two texts raises, [compare_configs]
    returns the dictionary of its handler: [identical] false, [error]
    set to the text of the exception, [differences] empty (and a count
    of 0). *)
Theorem compare_configs_read_failure
    (env : Env) (patterns : list str) (config1_path config2_path device_name : str) :
  (exists e, read_text env config1_path = Raised e)
  \/ (exists e, read_text env config2_path = Raised e) ->
  exists e,
    compare_configs env patterns config1_path config2_path device_name
    = comparison_error device_name e
    /\ identical (compare_configs env patterns config1_path config2_path device_name)
       = Some false
    /\ error (compare_configs env patterns config1_path config2_path device_name)
       = Some e
    /\ differences (compare_configs env patterns config1_path config2_path device_name)
       = Some []
    /\ differences_count (compare_configs env patterns config1_path config2_path device_name)
       = Some 0.
Proof.
  intros H. unfold compare_configs.
  destruct (read_text env config1_path) as [c1|e1].
  - destruct (read_text env config2_path) as [c2|e2].
    + destruct H as [[e H] | [e H]]; discriminate H.
    + exists e2. repeat split.
  - exists e1. repeat split.
Qed.

Lemma compare_configs_read_failure_witness :
  read_text unreadable (lit "a.cfg") = Raised (lit "[Errno 2] No such file or directory")
  /\ exists e,
       compare_configs unreadable default_patterns (lit "a.cfg") (lit "b.cfg") (lit "sw1")
       = comparison_error (lit "sw1") e.
Proof.
  split; [reflexivity|].
  destruct (compare_configs_read_failure unreadable default_patterns
              (lit "a.cfg") (lit "b.cfg") (lit "sw1")) as [e [Heq _]].
  - left. exists (lit "[Errno 2] No such file or directory"). reflexivity.
  - exists e. exact Heq.
Defined.

End DiffSpec.

(* ================================================================== *)
(** ** The order of strings and of file names *)

Module OrderFacts.

Lemma str_compare_refl (a : str) : str_compare a a = Eq.
Proof.
  induction a as [|x a IH]; simpl; [reflexivity|].
  now rewrite N.compare_refl.
Qed.

Lemma str_compare_antisym (a b : str) :
  str_compare b a = CompOpp (str_compare a b).
Proof.
  revert b. induction a as [|x a IH]; intros [|y b]; simpl; try reflexivity.
  rewrite (N.compare_antisym x y).
  destruct (N.compare x y); simpl; [apply IH | reflexivity | reflexivity].
Qed.

Lemma str_ltb_asym (a b : str) : str_ltb a b = true -> str_ltb b a = false.
Proof.
  unfold str_ltb. rewrite (str_compare_antisym a b).
  destruct (str_compare a b); simpl; congruence.
Qed.

Lemma str_ltb_false_le (a b : str) : str_ltb a b = false <-> str_le b a.
Proof.
  unfold str_ltb, str_le. rewrite (str_compare_antisym a b).
  destruct (str_compare a b); simpl; split; congruence.
Qed.

Lemma str_le_trans (a b c : str) : str_le a b -> str_le b c -> str_le a c.
Proof.
  unfold str_le. revert b c.
  induction a as [|x a IH]; intros [|y b] [|z c]; simpl; try congruence.
  destruct (N.compare_spec x y) as [Exy|Lxy|Gxy]; try congruence.
  - subst y. destruct (N.compare_spec x z); try congruence. apply IH.
  - intros _. destruct (N.compare_spec y z) as [Eyz|Lyz|Gyz]; try congruence.
    + subst z. intros _. apply N.compare_lt_iff in Lxy. now rewrite Lxy.
    + intros _. assert (L : (x < z)%N) by lia.
      apply N.compare_lt_iff in L. now rewrite L.
Qed.

Lemma str_compare_prefix (p a b : str) :
  str_compare (p ++ a) (p ++ b) = str_compare a b.
Proof.
  induction p as [|x p IH]; simpl; [reflexivity|].
  now rewrite N.compare_refl.
Qed.

(** Two texts that start with blocks of one length compare as the
    blocks do, and as what follows when the blocks are equal. *)
Lemma str_compare_block (a b s t : str) :
  length a = length b ->
  str_compare (a ++ s) (b ++ t)
  = match str_compare a b with Eq => str_compare s t | c => c end.
Proof.
  revert b. induction a as [|x a IH]; intros [|y b] Hlen; simpl in *;
    try discriminate; [reflexivity|].
  destruct (N.compare x y); [apply IH; congruence | reflexivity | reflexivity].
Qed.

Lemma zero_pad_length (w : nat) (n : N) : length (zero_pad w n) = w.
Proof.
  revert n. induction w as [|w IH]; intros n; simpl; [reflexivity|].
  rewrite length_app, IH. simpl. lia.
Qed.

Lemma compare_by_digits (m n : N) :
  N.compare m n
  = match N.compare (m / 10) (n / 10) with
    | Eq => N.compare (m mod 10) (n mod 10)
    | c => c
    end.
Proof.
  pose proof (N.div_mod m 10 ltac:(discriminate)) as Hm.
  pose proof (N.div_mod n 10 ltac:(discriminate)) as Hn.
  pose proof (N.mod_lt m 10 ltac:(discriminate)) as Hm'.
  pose proof (N.mod_lt n 10 ltac:(discriminate)) as Hn'.
  generalize dependent (m mod 10)%N. generalize dependent (n mod 10)%N.
  generalize dependent (m / 10)%N. generalize dependent (n / 10)%N.
  intros qn qm rn Hn Hrn rm Hm Hrm.
  destruct (N.compare_spec qm qn) as [E|L|G].
  - destruct (N.compare_spec rm rn) as [E'|L'|G'].
    + apply N.compare_eq_iff. lia.
    + apply N.compare_lt_iff. lia.
    + apply N.compare_gt_iff. lia.
  - apply N.compare_lt_iff. lia.
  - apply N.compare_gt_iff. lia.
Qed.

Lemma digit_compare (m n : N) :
  str_compare [digit m] [digit n] = N.compare (m mod 10) (n mod 10).
Proof.
  simpl. unfold digit.
  generalize (m mod 10)%N (n mod 10)%N. intros a b.
  destruct (N.compare_spec a b) as [E|L|G].
  - subst b. now rewrite N.compare_refl.
  - assert (H : (48 + a < 48 + b)%N) by lia.
    apply N.compare_lt_iff in H. now rewrite H.
  - assert (H : (48 + b < 48 + a)%N) by lia.
    apply N.compare_gt_iff in H. now rewrite H.
Qed.

(** Zero-padded numbers of one width compare as the numbers do. *)
Lemma zero_pad_compare (w : nat) :
  forall m n : N,
    (m < 10 ^ N.of_nat w)%N -> (n < 10 ^ N.of_nat w)%N ->
    str_compare (zero_pad w m) (zero_pad w n) = N.compare m n.
Proof.
  induction w as [|w IH]; intros m n Hm Hn.
  - simpl in *. symmetry. apply N.compare_eq_iff. lia.
  - rewrite Nat2N.inj_succ, N.pow_succ_r' in Hm, Hn.
    cbn [zero_pad].
    rewrite str_compare_block by now rewrite !zero_pad_length.
    rewrite IH.
    + rewrite digit_compare. symmetry. apply compare_by_digits.
    + apply N.Div0.div_lt_upper_bound. lia.
    + apply N.Div0.div_lt_upper_bound. lia.
Qed.

End OrderFacts.
Import OrderFacts.

(* ================================================================== *)
(** ** The snapshot listing and the backup selector *)

Module SelectorSpec.
Import DiffChecker CheckerProps.

Lemma insert_by_name_perm (x : Path) (l : list Path) :
  Permutation (x :: l) (insert_by_name x l).
Proof.
  induction l as [|y l IH]; simpl; [reflexivity|].
  destruct (str_ltb (name x) (name y)); [|reflexivity].
  rewrite perm_swap. now constructor.
Qed.

Lemma sort_by_name_reverse_perm (l : list Path) :
  Permutation l (sort_by_name_reverse l).
Proof.
  induction l as [|x l IH]; simpl; [constructor|].
  rewrite <- insert_by_name_perm. now constructor.
Qed.

Lemma insert_by_name_sorted (x : Path) (l : list Path) :
  StronglySorted name_desc l -> StronglySorted name_desc (insert_by_name x l).
Proof.
  induction 1 as [|y l Hl IH Hy]; simpl.
  - repeat constructor.
  - destruct (str_ltb (name x) (name y)) eqn:E.
    + constructor; [exact IH|].
      apply (Permutation_Forall (insert_by_name_perm x l)).
      constructor; [|exact Hy].
      apply str_ltb_asym in E. now apply str_ltb_false_le in E.
    + apply str_ltb_false_le in E.
      constructor; [now constructor|].
      constructor; [exact E|].
      apply Forall_forall. intros z Hz.
      rewrite Forall_forall in Hy. specialize (Hy z Hz).
      unfold name_desc in *. now apply (str_le_trans _ (name y)).
Qed.

Lemma sort_by_name_reverse_sorted (l : list Path) :
  StronglySorted name_desc (sort_by_name_reverse l).
Proof.
  induction l as [|x l IH]; simpl; [constructor|].
  now apply insert_by_name_sorted.
Qed.

Ltac pad_bound :=
  match goal with
  | |- (_ < ?b)%N => let v := eval vm_compute in b in change b with v; lia
  end.

(** File names of one device compare as their capture times do. *)
Lemma snapshot_filename_compare (device_name : str) (d1 d2 : datetime) :
  valid_datetime d1 -> valid_datetime d2 ->
  str_compare (MockBackup.snapshot_filename device_name d1)
              (MockBackup.snapshot_filename device_name d2)
  = time_compare (capture_time d1) (capture_time d2).
Proof.
  unfold valid_datetime.
  intros (Hy1 & Hm1 & Hd1 & HH1 & HM1 & HS1 & _) (Hy2 & Hm2 & Hd2 & HH2 & HM2 & HS2 & _).
  unfold MockBackup.snapshot_filename, strftime_Ymd_HMS.
  rewrite <- !app_assoc. rewrite !str_compare_prefix.
  cbn [capture_time time_compare].
  rewrite str_compare_block by now rewrite !zero_pad_length.
  rewrite zero_pad_compare by pad_bound.
  destruct (N.compare (year d1) (year d2)); try reflexivity.
  rewrite str_compare_block by now rewrite !zero_pad_length.
  rewrite zero_pad_compare by pad_bound.
  destruct (N.compare (month d1) (month d2)); try reflexivity.
  rewrite str_compare_block by now rewrite !zero_pad_length.
  rewrite zero_pad_compare by pad_bound.
  destruct (N.compare (day d1) (day d2)); try reflexivity.
  rewrite str_compare_prefix.
  rewrite str_compare_block by now rewrite !zero_pad_length.
  rewrite zero_pad_compare by pad_bound.
  destruct (N.compare (hour d1) (hour d2)); try reflexivity.
  rewrite str_compare_block by now rewrite !zero_pad_length.
  rewrite zero_pad_compare by pad_bound.
  destruct (N.compare (minute d1) (minute d2)); try reflexivity.
  rewrite str_compare_block by now rewrite !zero_pad_length.
  rewrite zero_pad_compare by pad_bound.
  destruct (N.compare (second d1) (second d2)); reflexivity.
Qed.

(** The listing of the specification: backups of the 1st, 3rd and 2nd
    of January come back as 3rd, 2nd, 1st. *)
Example newest_first_example :
  map name (get_all_backups_for_device three_backups (lit "core-switch-01"))
  = [ lit "core-switch-01_20240103_120000.cfg";
      lit "core-switch-01_20240102_120000.cfg";
      lit "core-switch-01_20240101_120000.cfg" ].
Proof. reflexivity. Qed.

(** C7: the listing of a device holds the files that match
    [{device_name}_*.cfg], greatest file name first in the order of
    strings; it is empty, and nothing is raised, when the backup
    directory is missing or cannot be inspected, when the search
    raises, and when no file matches.  Of two snapshots of one device
    taken at different seconds, the later one has the strictly greater
    file name. *)
Theorem listing_newest_first (env : Env) (device_name : str) :
  let listing := get_all_backups_for_device env device_name in
  let pattern := device_name ++ lit "_*.cfg" in
  StronglySorted (fun p q => str_compare (name q) (name p) <> Gt) listing
  /\ (forall files, backup_dir_exists env = Returned true ->
                    glob env pattern = Returned files -> Permutation files listing)
  /\ (backup_dir_exists env <> Returned true -> listing = [])
  /\ (forall e, glob env pattern = Raised e -> listing = [])
  /\ (glob env pattern = Returned [] -> listing = [])
  /\ (forall d1 d2, valid_datetime d1 -> valid_datetime d2 -> earlier d1 d2 ->
        str_lt (MockBackup.snapshot_filename device_name d1)
               (MockBackup.snapshot_filename device_name d2)).
Proof.
  intros listing pattern. subst listing pattern.
  unfold get_all_backups_for_device.
  split; [|split; [|split; [|split; [|split]]]].
  - destruct (backup_dir_exists env) as [[|]|]; try constructor.
    destruct (glob env _); [|constructor].
    apply sort_by_name_reverse_sorted.
  - intros files -> ->. apply sort_by_name_reverse_perm.
  - intros H. destruct (backup_dir_exists env) as [[|]|]; congruence.
  - intros e ->. now destruct (backup_dir_exists env) as [[|]|].
  - intros ->. now destruct (backup_dir_exists env) as [[|]|].
  - intros d1 d2 H1 H2 Hlt. unfold str_lt.
    now rewrite snapshot_filename_compare.
Qed.

Lemma listing_newest_first_witness :
  str_lt (MockBackup.snapshot_filename (lit "core-switch-01") (noon 2024 1 2))
         (MockBackup.snapshot_filename (lit "core-switch-01") (noon 2024 1 3)).
Proof.
  apply (proj2 (proj2 (proj2 (proj2 (proj2
           (listing_newest_first three_backups (lit "core-switch-01"))))))).
  - unfold valid_datetime. simpl. lia.
  - unfold valid_datetime. simpl. lia.
  - reflexivity.
Defined.

(** C6: when the listing of a device has fewer than two snapshots,
    [compare_latest_two_backups] returns the dictionary with the keys
    [error], [device] and [backups_available]: the message names the
    number [n] of snapshots found, in decimal, and the required two,
    and [backups_available] is [n]. *)
Theorem insufficient_backups
    (env : Env) (patterns : list str) (device_name : str) (n : nat) :
  length (get_all_backups_for_device env device_name) = n ->
  n < 2 ->
  let r := compare_latest_two_backups env patterns device_name in
  r = error_dict (lit "Insufficient backups: " ++ str_of_nat n
                  ++ lit " found, need at least 2") device_name (Some n)
  /\ error r = Some (lit "Insufficient backups: " ++ str_of_nat n
                     ++ lit " found, need at least 2")
  /\ backups_available r = Some n
  /\ device r = Some device_name
  /\ ((n = 0 /\ error r = Some (lit "Insufficient backups: 0 found, need at least 2"))
      \/ (n = 1 /\ error r = Some (lit "Insufficient backups: 1 found, need at least 2"))).
Proof.
  intros Hlen Hn r. subst r. unfold compare_latest_two_backups.
  rewrite Hlen. apply Nat.ltb_lt in Hn. rewrite Hn.
  apply Nat.ltb_lt in Hn.
  repeat split.
  destruct n as [|[|n]]; [left | right | lia]; split; reflexivity.
Qed.

Lemma insufficient_backups_witness :
  compare_latest_two_backups three_backups default_patterns (lit "other-switch-01")
  = error_dict (lit "Insufficient backups: 1 found, need at least 2")
               (lit "other-switch-01") (Some 1).
Proof.
  apply (insufficient_backups three_backups default_patterns (lit "other-switch-01") 1).
  - reflexivity.
  - lia.
Defined.

End SelectorSpec.

(* ================================================================== *)
(** ** The fleet backup *)

Module FleetSpec.
Import MockBackup FleetProps.

Section Fleet.

Variable mock_configs : str -> option (str -> M Oracle str).
Variable generate_cisco_config : str -> M Oracle str.

Local Abbreviation single := (backup_single_device mock_configs generate_cisco_config).
Local Abbreviation loop := (backup_loop mock_configs generate_cisco_config).
Local Abbreviation all_devices := (backup_all_devices mock_configs generate_cisco_config).

Lemma write_file_write_error (filename : str) (content : FileContent) (w w' : World) :
  write_file filename content w = Returned w' -> write_error w' = write_error w.
Proof.
  unfold write_file. destruct (write_error w filename); [discriminate|].
  intros H. injection H as <-. reflexivity.
Qed.

(** The backup of one device leaves the write permissions as they
    are. *)
Lemma backup_single_device_write_error (device : Device) (w : World) :
  write_error (snd (single device w)) = write_error w.
Proof.
  unfold backup_single_device.
  destruct (connect_to_device device (oracle w)) as [[c|] o1]; [|reflexivity].
  destruct (get_device_config _ _ c (device_type device) o1) as [[[|ch cfg]|] o2];
    try reflexivity.
  destruct (datetime_now o2) as [t o3].
  destruct (write_file _ _ (set_oracle w o3)) as [w4|e] eqn:E4; [|reflexivity].
  apply write_file_write_error in E4. simpl in E4.
  destruct (datetime_now (oracle w4)) as [t' o5].
  destruct (write_file _ _ (set_oracle w4 o5)) as [w6|e] eqn:E6; simpl.
  - apply write_file_write_error in E6. simpl in E6. congruence.
  - exact E4.
Qed.

(** What the loop adds to the two lists: every device once, in one
    list or the other. *)
Lemma backup_loop_spec (devices : list Device) :
  forall results w,
    exists oks fails,
      success (fst (loop devices results w)) = success results ++ oks
      /\ failed (fst (loop devices results w)) = failed results ++ fails
      /\ Permutation (oks ++ fails) (map summary_of devices)
      /\ total_devices (fst (loop devices results w)) = total_devices results
      /\ write_error (snd (loop devices results w)) = write_error w.
Proof.
  induction devices as [|device devices IH]; intros results w.
  - exists [], []. simpl. now rewrite !app_nil_r.
  - cbn [backup_loop].
    pose proof (backup_single_device_write_error device w) as Hw.
    destruct (single device w) as [ok w']. simpl in Hw.
    destruct ok.
    + destruct (IH (append_success results (summary_of device)) w')
        as (oks & fails & Hs & Hf & Hp & Ht & He).
      exists (summary_of device :: oks), fails.
      rewrite Hs, Hf, Ht, He. simpl. rewrite <- app_assoc.
      repeat split; try assumption. now constructor.
    + destruct (IH (append_failed results (summary_of device)) w')
        as (oks & fails & Hs & Hf & Hp & Ht & He).
      exists oks, (summary_of device :: fails).
      rewrite Hs, Hf, Ht, He. simpl. rewrite <- app_assoc.
      repeat split; try assumption.
      rewrite <- Permutation_middle. now constructor.
Qed.

Lemma map_summary_name (devices : list Device) :
  map summary_name (map summary_of devices) = map name devices.
Proof. rewrite map_map. reflexivity. Qed.

(** C3: when the result file can be written, [backup_all_devices]
    returns a result in which [success] followed by [failed] is a
    rearrangement of the summaries of the devices given: by name, every
    device is there as often as it is given (once, when the names
    given are distinct, so that no name is in both lists), and
    [total_devices] is the number of devices.  For no device the lists
    are empty and [total_devices] is 0. *)
Theorem backup_all_devices_partition (devices : list Device) (w : World) :
  write_error w (lit "backup_results.json") = None ->
  exists results w',
    all_devices devices w = (Returned results, w')
    /\ Permutation (success results ++ failed results) (map summary_of devices)
    /\ Permutation (map summary_name (success results ++ failed results))
                   (map name devices)
    /\ (NoDup (map name devices) ->
        NoDup (map summary_name (success results ++ failed results)))
    /\ total_devices results = length devices
    /\ (devices = [] ->
        success results = [] /\ failed results = [] /\ total_devices results = 0).
Proof.
  intros Hw. unfold backup_all_devices.
  destruct (datetime_now (oracle w)) as [t o1].
  set (results0 := {| success := []; failed := []; timestamp := isoformat t;
                      total_devices := length devices; type := lit "mock_backup" |}).
  destruct (backup_loop_spec devices results0 (set_oracle w o1))
    as (oks & fails & Hs & Hf & Hp & Ht & He).
  destruct (loop devices results0 (set_oracle w o1)) as [results w1].
  simpl in Hs, Hf, Ht, He.
  unfold write_file. rewrite He, Hw.
  eexists. eexists. split; [reflexivity|].
  rewrite Hs, Hf, Ht.
  assert (Hnames : Permutation (map summary_name (oks ++ fails)) (map name devices)).
  { rewrite <- map_summary_name. now apply Permutation_map. }
  split; [exact Hp|]. split; [exact Hnames|]. split; [|split; [reflexivity|]].
  - intros Hnd. apply (Permutation_NoDup (l := map name devices)); [|assumption].
    now symmetry.
  - intros ->. simpl in Hp.
    apply Permutation_sym, Permutation_nil, app_eq_nil in Hp.
    destruct Hp as [-> ->]. repeat split.
Qed.

(** C9: a device that is connected to and whose configuration is
    retrieved, but as the empty text, is not backed up: the backup of
    the device returns false and leaves the files as they are, and the
    loop of the fleet backup puts the device in [failed]. *)
Theorem empty_config_is_failure
    (device : Device) (w : World) (c : Connection) (o1 o2 : Oracle) :
  connect_to_device device (oracle w) = (Some c, o1) ->
  get_device_config mock_configs generate_cisco_config c (device_type device) o1
  = (Some [], o2) ->
  single device w = (false, set_oracle w o2)
  /\ files (snd (single device w)) = files w
  /\ forall rest results,
       loop (device :: rest) results w
       = loop rest (append_failed results (summary_of device)) (set_oracle w o2)
       /\ In (summary_of device) (failed (fst (loop (device :: rest) results w))).
Proof.
  intros Hc Hg.
  assert (Hs : single device w = (false, set_oracle w o2)).
  { unfold backup_single_device. now rewrite Hc, Hg. }
  split; [exact Hs|]. split; [now rewrite Hs|].
  intros rest results.
  assert (Hl : loop (device :: rest) results w
               = loop rest (append_failed results (summary_of device)) (set_oracle w o2)).
  { cbn [backup_loop]. now rewrite Hs. }
  split; [exact Hl|]. rewrite Hl.
  destruct (backup_loop_spec rest (append_failed results (summary_of device))
              (set_oracle w o2)) as (oks & fails & _ & Hf & _).
  rewrite Hf. simpl. apply in_or_app. left. apply in_or_app. right. now left.
Qed.

End Fleet.

Lemma backup_all_devices_partition_witness :
  exists results w',
    backup_all_devices blank_configs hostname_config [cisco_device; blank_device] calm
    = (Returned results, w')
    /\ Permutation (map summary_name (success results ++ failed results))
                   (map name [cisco_device; blank_device]).
Proof.
  destruct (backup_all_devices_partition blank_configs hostname_config
              [cisco_device; blank_device] calm eq_refl)
    as (results & w' & Heq & _ & Hp & _).
  exists results, w'. split; assumption.
Defined.

Lemma empty_config_is_failure_witness :
  connect_to_device blank_device (oracle calm)
  = (Some {| connected := true; conn_device := blank_device |}, after_draws 2 calm)
  /\ fst (backup_single_device blank_configs hostname_config blank_device calm) = false
  /\ files (snd (backup_single_device blank_configs hostname_config blank_device calm))
     = [].
Proof.
  split; [reflexivity|].
  destruct (empty_config_is_failure blank_configs hostname_config blank_device calm
              {| connected := true; conn_device := blank_device |}
              (after_draws 2 calm) (after_draws 4 calm))
    as (Hs & Hf & _).
  - reflexivity.
  - reflexivity.
  - split; [now rewrite Hs | exact Hf].
Defined.

(** The run of the two devices: the first is backed up, the second,
    whose configuration is empty, is not. *)
Example fleet_run_example :
  match backup_all_devices blank_configs hostname_config [cisco_device; blank_device] calm with
  | (Returned results, w') =>
      map summary_name (success results) = [lit "core-switch-01"]
      /\ map summary_name (failed results) = [lit "edge-01"]
      /\ map fst (files w')
         = [lit "backup_results.json"; lit "core-switch-01_info.json";
            lit "core-switch-01_20240102_120000.cfg"]
  | (Raised _, _) => False
  end.
Proof. vm_compute. repeat split. Qed.

End FleetSpec.

(* ================================================================== *)
(** ** More on the diff engine *)

Module DiffMore.
Import DiffChecker CheckerProps MoreProps DiffSpec.

Lemma positional_diff_length (lines_a lines_b : list str) :
  length (positional_diff lines_a lines_b)
  <= Nat.max (length lines_a) (length lines_b).
Proof.
  unfold positional_diff. rewrite length_map.
  etransitivity; [apply filter_length_le|]. now rewrite length_seq.
Qed.

Lemma positional_diff_nil (lines_a lines_b : list str) :
  positional_diff lines_a lines_b = [] <->
  forall i, nth i lines_a [] = nth i lines_b [].
Proof.
  split.
  - intros H i.
    destruct (str_eqb (nth i lines_a []) (nth i lines_b [])) eqn:E;
      [now apply str_eqb_eq|].
    apply str_eqb_neq in E.
    destruct (Nat.lt_ge_cases i (Nat.max (length lines_a) (length lines_b)))
      as [Hlt|Hge].
    + assert (Hin : In (record_at lines_a lines_b i) (positional_diff lines_a lines_b)).
      { apply positional_diff_In. exists i. tauto. }
      rewrite H in Hin. destruct Hin.
    + rewrite !nth_overflow in E by lia. contradiction.
  - intros H. unfold positional_diff. rewrite filter_none; [reflexivity|].
    intros i _. unfold differ_at.
    rewrite H. now rewrite str_eqb_refl.
Qed.

Lemma str_eqb_sym (a b : str) : str_eqb a b = str_eqb b a.
Proof.
  destruct (str_eqb a b) eqn:E.
  - apply str_eqb_eq in E. subst. symmetry. apply str_eqb_refl.
  - apply str_eqb_neq in E. symmetry. apply str_eqb_neq. congruence.
Qed.

Lemma positional_diff_swap (lines_a lines_b : list str) :
  positional_diff lines_b lines_a = map swap_sides (positional_diff lines_a lines_b).
Proof.
  unfold positional_diff. rewrite map_map, Nat.max_comm.
  rewrite (filter_ext (differ_at lines_b lines_a) (differ_at lines_a lines_b)).
  - reflexivity.
  - intros i. unfold differ_at. now rewrite str_eqb_sym.
Qed.

Lemma StronglySorted_map_succ (l : list nat) :
  StronglySorted lt l -> StronglySorted lt (map (fun i => i + 1) l).
Proof.
  induction 1 as [|x l Hl IH Hx]; simpl; constructor; [exact IH|].
  rewrite Forall_map. eapply Forall_impl; [|exact Hx]. simpl. intros; lia.
Qed.

Lemma StronglySorted_filter (f : nat -> bool) (l : list nat) :
  StronglySorted lt l -> StronglySorted lt (filter f l).
Proof.
  induction 1 as [|x l Hl IH Hx]; simpl; [constructor|].
  destruct (f x); [|exact IH]. constructor; [exact IH|].
  apply Forall_forall. intros y Hy. apply filter_In in Hy.
  rewrite Forall_forall in Hx. now apply Hx.
Qed.

Lemma StronglySorted_seq (start len : nat) : StronglySorted lt (seq start len).
Proof.
  revert start. induction len as [|len IH]; intros start; simpl; constructor.
  - apply IH.
  - apply Forall_forall. intros y Hy. apply in_seq in Hy. lia.
Qed.

(** X1: in every result of [compare_configs], [differences_count] is the
    number of entries of [differences], and [summary] says so: the
    error text after a failure, "Configurations are identical" for no
    difference, "Found n differences" otherwise. *)
Theorem count_and_summary_agree
    (env : Env) (patterns : list str) (config1_path config2_path device_name : str) :
  let r := compare_configs env patterns config1_path config2_path device_name in
  exists diffs,
    differences r = Some diffs
    /\ differences_count r = Some (length diffs)
    /\ summary r
       = Some (match error r with
               | Some e => lit "Comparison error: " ++ e
               | None =>
                   match diffs with
                   | [] => lit "Configurations are identical"
                   | _ => lit "Found " ++ str_of_nat (length diffs) ++ lit " differences"
                   end
               end).
Proof.
  intros r. subst r. unfold compare_configs.
  destruct (read_text env config1_path) as [c1|e1];
    [destruct (read_text env config2_path) as [c2|e2]|].
  - unfold compare_texts. cbn [differences differences_count summary error].
    eexists. split; [reflexivity|]. split; [reflexivity|].
    destruct (compare_lines _ _); reflexivity.
  - exists []. repeat split.
  - exists []. repeat split.
Qed.

(** X2: the differences of two texts are at most as many as the lines of
    the longer normalized text; their line numbers lie between 1 and
    that number and increase strictly; the two values of a record are
    never equal. *)
Theorem differences_are_bounded_and_ordered
    (env : Env) (patterns : list str) (text_a text_b path_a path_b device_name : str) :
  let lines_a := splitlines (filter_ignored_lines patterns text_a) in
  let lines_b := splitlines (filter_ignored_lines patterns text_b) in
  let n := Nat.max (length lines_a) (length lines_b) in
  exists diffs,
    differences (compare_texts env patterns text_a text_b path_a path_b device_name)
    = Some diffs
    /\ length diffs <= n
    /\ StronglySorted lt (map line_number diffs)
    /\ Forall (fun r => 1 <= line_number r <= n /\ old_value r <> new_value r) diffs.
Proof.
  intros lines_a lines_b n.
  exists (positional_diff lines_a lines_b). split; [|split; [|split]].
  - unfold compare_texts. simpl. now rewrite compare_lines_positional.
  - apply positional_diff_length.
  - unfold positional_diff. rewrite map_map. simpl.
    apply StronglySorted_map_succ, StronglySorted_filter, StronglySorted_seq.
  - apply Forall_forall. intros r Hr. apply positional_diff_In in Hr.
    destruct Hr as [i [Hi [Hd ->]]]. simpl. fold n in Hi. split; [lia | exact Hd].
Qed.

(** X3: two files whose normalized texts are equal compare as identical,
    with no difference and no error: a file against itself, and files
    that differ in ignored lines only. *)
Theorem equal_normalized_texts_are_identical
    (env : Env) (patterns : list str)
    (config1_path config2_path device_name text_a text_b : str) :
  read_text env config1_path = Returned text_a ->
  read_text env config2_path = Returned text_b ->
  filter_ignored_lines patterns text_a = filter_ignored_lines patterns text_b ->
  let r := compare_configs env patterns config1_path config2_path device_name in
  identical r = Some true /\ differences r = Some [] /\ differences_count r = Some 0
  /\ summary r = Some (lit "Configurations are identical") /\ error r = None.
Proof.
  intros H1 H2 Heq r. subst r. unfold compare_configs. rewrite H1, H2.
  unfold compare_texts. rewrite Heq.
  assert (Hnil : compare_lines
                   (splitlines (filter_ignored_lines patterns text_b))
                   (splitlines (filter_ignored_lines patterns text_b)) = []).
  { rewrite compare_lines_positional. now apply positional_diff_nil. }
  cbn [identical differences differences_count summary error].
  rewrite Hnil. repeat split.
Qed.

Lemma equal_normalized_texts_are_identical_witness :
  identical (compare_configs echo default_patterns
               (lit "! Generated: today" ++ nl ++ lit "hostname sw1")
               (lit "hostname sw1" ++ nl ++ lit "# comment")
               (lit "sw1"))
  = Some true.
Proof.
  apply (equal_normalized_texts_are_identical echo default_patterns
           (lit "! Generated: today" ++ nl ++ lit "hostname sw1")
           (lit "hostname sw1" ++ nl ++ lit "# comment")
           (lit "sw1")
           (lit "! Generated: today" ++ nl ++ lit "hostname sw1")
           (lit "hostname sw1" ++ nl ++ lit "# comment"));
    reflexivity.
Defined.

(** X4: two texts compare as identical exactly when their normalized line
    sequences agree at every index, a missing line counting as an empty
    one. *)
Theorem identical_iff_lines_agree
    (env : Env) (patterns : list str) (text_a text_b path_a path_b device_name : str) :
  let lines_a := splitlines (filter_ignored_lines patterns text_a) in
  let lines_b := splitlines (filter_ignored_lines patterns text_b) in
  identical (compare_texts env patterns text_a text_b path_a path_b device_name)
  = Some true
  <-> forall i, nth i lines_a [] = nth i lines_b [].
Proof.
  intros lines_a lines_b. unfold compare_texts. cbn [identical].
  fold lines_a lines_b. rewrite compare_lines_positional.
  rewrite <- positional_diff_nil.
  destruct (positional_diff lines_a lines_b); simpl; split;
    congruence || reflexivity.
Qed.

(** X5: comparing in the other direction finds the same lines: the same
    flag and count, and the same records with old and new value
    exchanged. *)
Theorem compare_is_symmetric
    (env : Env) (patterns : list str) (text_a text_b path_a path_b device_name : str) :
  let r := compare_texts env patterns text_a text_b path_a path_b device_name in
  let r' := compare_texts env patterns text_b text_a path_b path_a device_name in
  identical r' = identical r
  /\ differences_count r' = differences_count r
  /\ differences r' = option_map (map swap_sides) (differences r).
Proof.
  intros r r'. subst r r'. unfold compare_texts.
  cbn [identical differences differences_count option_map].
  rewrite !compare_lines_positional.
  rewrite (positional_diff_swap
             (splitlines (filter_ignored_lines patterns text_a))
             (splitlines (filter_ignored_lines patterns text_b))).
  rewrite length_map. repeat split.
Qed.

End DiffMore.

(* ================================================================== *)
(** ** More on the normalizer *)

Module NormalizerMore.
Import DiffChecker CheckerProps MoreProps NormalizerSpec.

Lemma join_only_line_feeds (parts : list str) :
  Forall one_line parts -> only_line_feeds (join nl parts).
Proof.
  unfold only_line_feeds.
  induction 1 as [|p ps Hp Hps IH]; [constructor|].
  assert (Hp' : Forall (fun c => is_linebreak c = true -> c = 10%N) p).
  { eapply Forall_impl; [|exact Hp]. simpl. intros c Hc Hc'. congruence. }
  destruct ps as [|q ps']; [exact Hp'|].
  change (join nl (p :: q :: ps')) with (p ++ nl ++ join nl (q :: ps')).
  apply Forall_app. split; [exact Hp'|].
  apply Forall_app. split; [|exact IH].
  repeat constructor.
Qed.

Lemma lstrip_app_blank (ws s : str) :
  is_blank ws = true -> lstrip (ws ++ s) = lstrip s.
Proof.
  induction ws as [|c ws IH]; simpl; [reflexivity|].
  intros H. apply andb_true_iff in H. destruct H as [Hc Hws].
  rewrite Hc. now apply IH.
Qed.

Lemma lstrip_app (a b : str) :
  lstrip (a ++ b) = if is_blank a then lstrip b else lstrip a ++ b.
Proof.
  induction a as [|c a IH]; simpl; [reflexivity|].
  destruct (is_space c); simpl; [exact IH | reflexivity].
Qed.

Lemma is_blank_rev (s : str) : is_blank (rev s) = is_blank s.
Proof.
  unfold is_blank. induction s as [|c s IH]; simpl; [reflexivity|].
  rewrite forallb_app, IH. simpl. rewrite andb_true_r. apply andb_comm.
Qed.

Lemma is_blank_lstrip (s : str) : is_blank (lstrip s) = is_blank s.
Proof.
  induction s as [|c s IH]; simpl; [reflexivity|].
  destruct (is_space c) eqn:E; simpl; [exact IH | now rewrite E].
Qed.

Lemma strip_surrounded (ws1 s ws2 : str) :
  is_blank ws1 = true -> is_blank ws2 = true ->
  strip (ws1 ++ s ++ ws2) = strip s.
Proof.
  intros H1 H2. unfold strip. rewrite (lstrip_app_blank ws1) by assumption.
  rewrite lstrip_app. destruct (is_blank s) eqn:Hs.
  - rewrite (lstrip_blank ws2 H2), (lstrip_blank s Hs). reflexivity.
  - unfold rstrip. rewrite rev_app_distr.
    rewrite lstrip_app_blank; [reflexivity|]. now rewrite is_blank_rev.
Qed.

Lemma startswith_empty_prefix (s : str) : startswith s [] = true.
Proof. destruct s; reflexivity. Qed.

Lemma dropped_empty_pattern (patterns : list str) (line : str) :
  In [] patterns -> dropped patterns line = true.
Proof.
  intros H. unfold dropped. apply existsb_exists. exists [].
  split; [exact H | apply startswith_empty_prefix].
Qed.

Lemma dropped_app (ps qs : list str) (line : str) :
  dropped (ps ++ qs) line = dropped ps line || dropped qs line.
Proof. unfold dropped. apply existsb_app. Qed.

Lemma filter_filter_kept (ps qs : list str) (lines : list str) :
  filter (fun line => negb (dropped (ps ++ qs) line)) lines
  = filter (fun line => negb (dropped qs line))
           (filter (fun line => negb (dropped ps line)) lines).
Proof.
  induction lines as [|l ls IH]; simpl; [reflexivity|].
  rewrite dropped_app. destruct (dropped ps l); simpl; [exact IH|].
  destruct (dropped qs l); simpl; [exact IH | now rewrite IH].
Qed.

Lemma drop_final_empty_when_no_final_line_feed (parts : list str) :
  Forall one_line parts ->
  endswith (join nl parts) nl = false ->
  drop_final_empty parts = parts \/ parts = [[]].
Proof.
  intros Hparts Hend.
  destruct (rev_case parts) as [-> | [ps [p ->]]]; [now left|].
  rewrite drop_final_empty_snoc.
  destruct p as [|c p]; [|now left].
  destruct ps as [|q qs]; [now right|].
  rewrite join_snoc in Hend by discriminate.
  rewrite app_nil_r in Hend.
  change (join nl (q :: qs) ++ nl) with (join nl (q :: qs) ++ [10%N]) in Hend.
  rewrite endswith_snoc in Hend. discriminate Hend.
Qed.

(** X6: the text the normalizer returns has no line boundary but the line
    feed: carriage returns, form feeds, the Unicode separators and the
    other boundaries of [splitlines] are all replaced. *)
Theorem filter_output_has_line_feeds_only (patterns : list str) (text : str) :
  only_line_feeds (filter_ignored_lines patterns text).
Proof.
  rewrite filter_ignored_lines_join.
  apply join_only_line_feeds, filtered_lines_one_line.
Qed.

(** X7: a pattern that is the empty string matches every line: with such a
    pattern in the list the normalizer returns the empty text. *)
Theorem empty_pattern_drops_every_line (patterns : list str) (text : str) :
  In [] patterns -> filter_ignored_lines patterns text = [].
Proof.
  intros H. rewrite filter_ignored_lines_join, filtered_lines_filter.
  rewrite DiffSpec.filter_none; [reflexivity|].
  intros line _. now rewrite dropped_empty_pattern.
Qed.

Lemma empty_pattern_drops_every_line_witness :
  filter_ignored_lines [lit "!"; []] (lit "hostname sw1" ++ nl ++ lit "end") = [].
Proof.
  apply (empty_pattern_drops_every_line [lit "!"; []]). right. now left.
Defined.

(** X8: whitespace before and after a line plays no part in the decision to
    drop it: a comment line is dropped however it is indented. *)
Theorem dropping_ignores_surrounding_whitespace
    (patterns : list str) (ws1 line ws2 : str) :
  is_blank ws1 = true -> is_blank ws2 = true ->
  ignore_line_loop patterns (ws1 ++ line ++ ws2) = ignore_line_loop patterns line.
Proof.
  intros H1 H2. rewrite !ignore_line_loop_dropped. unfold dropped.
  now rewrite strip_surrounded.
Qed.

Lemma dropping_ignores_surrounding_whitespace_witness :
  ignore_line_loop default_patterns (lit "   " ++ lit "! comment" ++ lit "  ")
  = ignore_line_loop default_patterns (lit "! comment").
Proof.
  apply (dropping_ignores_surrounding_whitespace default_patterns); reflexivity.
Defined.

(** X9: filtering with two lists of patterns at once keeps the lines that
    filtering with the first and then with the second keeps; as texts
    the two agree when the first pass does not end with a line feed. *)
Theorem filter_with_joined_patterns (ps qs : list str) (text : str) :
  endswith (filter_ignored_lines ps text) nl = false ->
  filtered_lines (ps ++ qs) text
  = filter (fun line => negb (ignore_line_loop qs line)) (filtered_lines ps text)
  /\ filter_ignored_lines qs (filter_ignored_lines ps text)
     = filter_ignored_lines (ps ++ qs) text.
Proof.
  intros Hend.
  assert (Hlines : filtered_lines (ps ++ qs) text
                   = filter (fun line => negb (dropped qs line)) (filtered_lines ps text)).
  { rewrite !filtered_lines_filter. apply filter_filter_kept. }
  split.
  - rewrite Hlines. apply filter_ext. intros l. now rewrite ignore_line_loop_dropped.
  - rewrite (filter_ignored_lines_join (ps ++ qs)), Hlines.
    rewrite (filter_ignored_lines_join ps) in *.
    rewrite filter_ignored_lines_join, filtered_lines_filter.
    rewrite splitlines_join by apply filtered_lines_one_line.
    destruct (drop_final_empty_when_no_final_line_feed (filtered_lines ps text)
                (filtered_lines_one_line ps text) Hend) as [-> | ->].
    + reflexivity.
    + simpl. destruct (dropped qs []); reflexivity.
Qed.

Lemma filter_with_joined_patterns_witness :
  filter_ignored_lines [lit "#"]
    (filter_ignored_lines [lit "!"] (lit "!a" ++ nl ++ lit "#b" ++ nl ++ lit "c"))
  = filter_ignored_lines ([lit "!"] ++ [lit "#"]) (lit "!a" ++ nl ++ lit "#b" ++ nl ++ lit "c").
Proof.
  apply (filter_with_joined_patterns [lit "!"] [lit "#"]). reflexivity.
Defined.

End NormalizerMore.

(* ================================================================== *)
(** ** More on the backup selector *)

Module SelectorMore.
Import DiffChecker CheckerProps SelectorSpec.

Lemma str_le_refl (a : str) : str_le a a.
Proof. unfold str_le. now rewrite str_compare_refl. Qed.

Lemma compare_configs_device
    (env : Env) (patterns : list str) (config1_path config2_path device_name : str) :
  device (compare_configs env patterns config1_path config2_path device_name)
  = Some device_name
  /\ backups_available (compare_configs env patterns config1_path config2_path device_name)
     = None.
Proof.
  unfold compare_configs.
  destruct (read_text env config1_path); [destruct (read_text env config2_path)|];
    split; reflexivity.
Qed.

(** The listing when the directory exists and the search returns. *)
Lemma listing_of_files (env : Env) (device_name : str) (files : list Path) :
  backup_dir_exists env = Returned true ->
  glob env (device_name ++ lit "_*.cfg") = Returned files ->
  get_all_backups_for_device env device_name = sort_by_name_reverse files.
Proof. intros H1 H2. unfold get_all_backups_for_device. now rewrite H1, H2. Qed.

(** X10: with two snapshots or more, the two compared are the two of
    greatest file name: [latest] has the greatest name of all the files
    of the device, [previous] the greatest of the others; the older
    text is the first argument of the comparison, and the result names
    both files and the device, without [backups_available]. *)
Theorem latest_two_are_the_greatest
    (env : Env) (patterns : list str) (device_name : str) (files : list Path) :
  backup_dir_exists env = Returned true ->
  glob env (device_name ++ lit "_*.cfg") = Returned files ->
  2 <= length files ->
  exists latest previous rest,
    get_all_backups_for_device env device_name = latest :: previous :: rest
    /\ Permutation files (latest :: previous :: rest)
    /\ (forall f, In f files -> str_le (name f) (name latest))
    /\ (forall f, In f (previous :: rest) -> str_le (name f) (name previous))
    /\ compare_latest_two_backups env patterns device_name
       = update_backups_compared
           (compare_configs env patterns (path_str previous) (path_str latest) device_name)
           (name previous) (name latest)
    /\ backups_compared (compare_latest_two_backups env patterns device_name)
       = Some (name previous, name latest)
    /\ device (compare_latest_two_backups env patterns device_name) = Some device_name
    /\ backups_available (compare_latest_two_backups env patterns device_name) = None.
Proof.
  intros Hdir Hglob Hlen.
  pose proof (listing_of_files env device_name files Hdir Hglob) as Hlist.
  pose proof (sort_by_name_reverse_perm files) as Hperm.
  pose proof (sort_by_name_reverse_sorted files) as Hsorted.
  rewrite <- Hlist in Hperm, Hsorted.
  pose proof (Permutation_length Hperm) as Hl.
  destruct (get_all_backups_for_device env device_name) as [|latest [|previous rest]] eqn:E;
    simpl in Hl; try lia.
  exists latest, previous, rest.
  apply StronglySorted_inv in Hsorted. destruct Hsorted as [Hs1 Hf1].
  apply StronglySorted_inv in Hs1. destruct Hs1 as [_ Hf2].
  rewrite Forall_forall in Hf1, Hf2.
  assert (Hcmp : compare_latest_two_backups env patterns device_name
                 = update_backups_compared
                     (compare_configs env patterns (path_str previous) (path_str latest)
                                      device_name)
                     (name previous) (name latest)).
  { unfold compare_latest_two_backups. rewrite E. reflexivity. }
  split; [reflexivity|]. split; [exact Hperm|].
  split; [|split; [|split; [exact Hcmp|]]].
  - intros f Hf. apply (Permutation_in _ Hperm) in Hf.
    destruct Hf as [<- | Hf]; [apply str_le_refl | now apply Hf1].
  - intros f [<- | Hf]; [apply str_le_refl | now apply Hf2].
  - rewrite Hcmp. cbn [backups_compared device backups_available update_backups_compared].
    split; [reflexivity|]. apply compare_configs_device.
Qed.

Lemma latest_two_are_the_greatest_witness :
  backups_compared
    (compare_latest_two_backups three_backups default_patterns (lit "core-switch-01"))
  = Some (lit "core-switch-01_20240102_120000.cfg",
          lit "core-switch-01_20240103_120000.cfg").
Proof.
  destruct (latest_two_are_the_greatest three_backups default_patterns
              (lit "core-switch-01")
              [ snapshot "backups" "core-switch-01_20240101_120000.cfg";
                snapshot "backups" "core-switch-01_20240103_120000.cfg";
                snapshot "backups" "core-switch-01_20240102_120000.cfg" ]
              eq_refl eq_refl)
    as (latest & previous & rest & Hlist & _ & _ & _ & _ & Hbc & _).
  - simpl. lia.
  - injection Hlist as <- <- <-. exact Hbc.
Defined.

(** X11: a snapshot that cannot be read any more when the two latest are
    compared (it was removed after the listing) gives a result, not an
    exception: [identical] false, the text of the error under [error],
    no difference, and the names of the two files all the same. *)
Theorem vanished_snapshot_is_reported
    (env : Env) (patterns : list str) (device_name : str)
    (latest previous : Path) (rest : list Path) :
  get_all_backups_for_device env device_name = latest :: previous :: rest ->
  (exists e, read_text env (path_str previous) = Raised e)
  \/ (exists e, read_text env (path_str latest) = Raised e) ->
  let r := compare_latest_two_backups env patterns device_name in
  exists e,
    error r = Some e /\ identical r = Some false /\ differences r = Some []
    /\ summary r = Some (lit "Comparison error: " ++ e)
    /\ backups_compared r = Some (name previous, name latest).
Proof.
  intros Hlist Hread r. subst r.
  unfold compare_latest_two_backups. rewrite Hlist. cbn [length Nat.ltb Nat.leb nth_error].
  unfold compare_configs.
  destruct (read_text env (path_str previous)) as [c1|e1].
  - destruct (read_text env (path_str latest)) as [c2|e2].
    + destruct Hread as [[e H] | [e H]]; discriminate H.
    + exists e2. repeat split.
  - exists e1. repeat split.
Qed.

Lemma vanished_snapshot_is_reported_witness :
  exists e,
    error (compare_latest_two_backups
             {| read_text := read_text unreadable;
                path_name := path_name three_backups;
                now := now three_backups;
                backup_dir_exists := backup_dir_exists three_backups;
                glob := glob three_backups |}
             default_patterns (lit "core-switch-01"))
    = Some e.
Proof.
  destruct (vanished_snapshot_is_reported
              {| read_text := read_text unreadable;
                 path_name := path_name three_backups;
                 now := now three_backups;
                 backup_dir_exists := backup_dir_exists three_backups;
                 glob := glob three_backups |}
              default_patterns (lit "core-switch-01")
              (snapshot "backups" "core-switch-01_20240103_120000.cfg")
              (snapshot "backups" "core-switch-01_20240102_120000.cfg")
              [snapshot "backups" "core-switch-01_20240101_120000.cfg"]
              eq_refl)
    as (e & He & _).
  - left. eexists. reflexivity.
  - exists e. exact He.
Defined.

End SelectorMore.

(* ================================================================== *)
(** ** More on the fleet backup *)

Module FleetMore.
Import MockBackup FleetProps MoreProps FleetMoreProps FleetSpec.

Lemma strftime_length (t : datetime) : length (strftime_Ymd_HMS t) = 15.
Proof.
  unfold strftime_Ymd_HMS. rewrite !length_app, !zero_pad_length. reflexivity.
Qed.

(** A snapshot and an information file never have the same name. *)
Lemma snapshot_is_not_info (device_name : str) (t : datetime) :
  snapshot_filename device_name t <> device_name ++ lit "_info.json".
Proof.
  intros H. apply (f_equal (@length N)) in H.
  unfold snapshot_filename in H.
  rewrite !length_app, strftime_length in H. simpl in H. lia.
Qed.

Lemma file_content_filter_other (f g : str) (fs : list (str * FileContent)) :
  f <> g ->
  file_content f (filter (fun entry => negb (str_eqb (fst entry) g)) fs)
  = file_content f fs.
Proof.
  intros Hfg. induction fs as [|[n c] fs IH]; simpl; [reflexivity|].
  destruct (str_eqb n g) eqn:Eg; simpl.
  - apply str_eqb_eq in Eg. subst n.
    destruct (str_eqb g f) eqn:Ef; [|exact IH].
    apply str_eqb_eq in Ef. congruence.
  - now rewrite IH.
Qed.

Lemma write_file_content (filename : str) (content : FileContent) (w w' : World) :
  write_file filename content w = Returned w' ->
  file_content filename (files w') = Some content
  /\ (forall f, f <> filename -> file_content f (files w') = file_content f (files w))
  /\ (forall f, In f (file_names w) -> In f (file_names w'))
  /\ oracle w' = oracle w.
Proof.
  unfold write_file. destruct (write_error w filename); [discriminate|].
  intros H. injection H as <-. cbn [files oracle]. split; [|split; [|split]].
  - simpl. now rewrite str_eqb_refl.
  - intros f Hf. simpl.
    destruct (str_eqb filename f) eqn:E.
    + apply str_eqb_eq in E. congruence.
    + now apply file_content_filter_other.
  - unfold file_names. cbn [files map fst]. intros f Hf.
    destruct (str_eqb f filename) eqn:E.
    + apply str_eqb_eq in E. now left.
    + right. apply in_map_iff in Hf. destruct Hf as [[n c] [Hn Hin]].
      simpl in Hn. subst n. apply in_map_iff. exists (f, c). split; [reflexivity|].
      apply filter_In. split; [exact Hin|]. simpl. now rewrite E.
  - reflexivity.
Qed.


Section FleetMoreFacts.

Variable mock_configs : str -> option (str -> M Oracle str).
Variable generate_cisco_config : str -> M Oracle str.

Local Abbreviation single := (backup_single_device mock_configs generate_cisco_config).
Local Abbreviation loop := (backup_loop mock_configs generate_cisco_config).
Local Abbreviation all_devices := (backup_all_devices mock_configs generate_cisco_config).

(** X12: a device is reported as backed up only when its snapshot and its
    information file are in the backup directory: the snapshot is named
    after the device and a reading of the clock and holds a non-empty
    configuration, the information file gives the name of the snapshot
    and its size, and no other file of the directory has changed. *)
Theorem success_stores_the_snapshot (device : Device) (w w' : World) :
  single device w = (true, w') ->
  exists (config : str) (t t' : datetime),
    config <> []
    /\ file_content (snapshot_filename (name device) t) (files w') = Some (Text config)
    /\ file_content (name device ++ lit "_info.json") (files w')
       = Some (JsonInfo {| info_device := name device;
                           info_filename := snapshot_filename (name device) t;
                           info_timestamp := isoformat t';
                           info_size := length config;
                           info_type := lit "mock_backup" |})
    /\ (forall f, f <> snapshot_filename (name device) t ->
                  f <> name device ++ lit "_info.json" ->
                  file_content f (files w') = file_content f (files w)).
Proof.
  unfold backup_single_device.
  destruct (connect_to_device device (oracle w)) as [[c|] o1]; [|discriminate].
  destruct (get_device_config _ _ c (device_type device) o1) as [[[|ch cfg]|] o2];
    try discriminate.
  destruct (datetime_now o2) as [t o3].
  destruct (write_file _ _ (set_oracle w o3)) as [w4|e4] eqn:E4; [|discriminate].
  destruct (datetime_now (oracle w4)) as [t' o5].
  destruct (write_file _ _ (set_oracle w4 o5)) as [w6|e6] eqn:E6; [|discriminate].
  intros H. injection H as <-.
  apply write_file_content in E4. destruct E4 as (Hc4 & Hf4 & _ & _).
  apply write_file_content in E6. destruct E6 as (Hc6 & Hf6 & _ & _).
  cbn [files set_oracle] in *.
  exists (ch :: cfg), t, t'. split; [discriminate|]. split; [|split].
  - rewrite Hf6 by apply snapshot_is_not_info. exact Hc4.
  - exact Hc6.
  - intros f H1 H2. rewrite Hf6 by assumption. now apply Hf4.
Qed.


(** The backup of one device keeps every file name of the directory. *)
Lemma backup_single_device_keeps_names (device : Device) (w : World) (f : str) :
  In f (file_names w) -> In f (file_names (snd (single device w))).
Proof.
  intros Hf. unfold backup_single_device.
  destruct (connect_to_device device (oracle w)) as [[c|] o1]; [|exact Hf].
  destruct (get_device_config _ _ c (device_type device) o1) as [[[|ch cfg]|] o2];
    try exact Hf.
  destruct (datetime_now o2) as [t o3].
  destruct (write_file _ _ (set_oracle w o3)) as [w4|e4] eqn:E4; [|exact Hf].
  apply write_file_content in E4. destruct E4 as (_ & _ & Hn4 & _).
  specialize (Hn4 f Hf).
  destruct (datetime_now (oracle w4)) as [t' o5].
  destruct (write_file _ _ (set_oracle w4 o5)) as [w6|e6] eqn:E6; [|exact Hn4].
  apply write_file_content in E6. destruct E6 as (_ & _ & Hn6 & _).
  now apply Hn6.
Qed.

Lemma backup_loop_keeps_names (devices : list Device) (f : str) :
  forall results w,
    In f (file_names w) -> In f (file_names (snd (loop devices results w))).
Proof.
  induction devices as [|device devices IH]; intros results w Hf; [exact Hf|].
  cbn [backup_loop].
  pose proof (backup_single_device_keeps_names device w f Hf) as H.
  destruct (single device w) as [ok w1]. simpl in H.
  destruct ok; now apply IH.
Qed.




(** X16: a fleet backup removes no file: every name of the backup directory
    is still there afterwards, whether the run returns or raises. *)
Theorem fleet_backup_keeps_every_file (devices : list Device) (w : World) (f : str) :
  In f (file_names w) -> In f (file_names (snd (all_devices devices w))).
Proof.
  intros Hf. unfold backup_all_devices.
  destruct (datetime_now (oracle w)) as [t o1].
  match goal with
  | |- context [loop devices ?r ?w0] =>
      pose proof (backup_loop_keeps_names devices f r w0 Hf) as Hl;
      destruct (loop devices r w0) as [results w1]
  end.
  cbn [snd] in Hl.
  destruct (write_file _ _ w1) as [w2|e] eqn:E2; [|exact Hl].
  apply write_file_content in E2. destruct E2 as (_ & _ & Hn & _).
  now apply Hn.
Qed.

End FleetMoreFacts.

Lemma success_stores_the_snapshot_witness :
  exists config t,
    file_content (snapshot_filename (name cisco_device) t)
      (files (snd (backup_single_device blank_configs hostname_config cisco_device calm)))
    = Some (Text config).
Proof.
  destruct (success_stores_the_snapshot blank_configs hostname_config cisco_device calm
              (snd (backup_single_device blank_configs hostname_config cisco_device calm))
              eq_refl)
    as (config & t & t' & _ & Hc & _).
  exists config, t. exact Hc.
Defined.



Lemma fleet_backup_keeps_every_file_witness :
  In (lit "core-switch-01_20240102_120000.cfg")
     (file_names
        (snd (backup_all_devices blank_configs hostname_config [blank_device]
                (snd (backup_single_device blank_configs hostname_config
                        cisco_device calm))))).
Proof.
  apply (fleet_backup_keeps_every_file blank_configs hostname_config).
  vm_compute. right. now left.
Defined.

End FleetMore.

(* ================================================================== *)
(** ** The inventory of the deployer *)

Module InventorySpec.
Import Deployer DeployerProps.

Lemma dict_get_set_same (k : str) (v : RawDevice) (d : Inventory) :
  dict_get k (dict_set k v d) = Some v.
Proof.
  induction d as [|[k' v'] d IH]; simpl.
  - now rewrite str_eqb_refl.
  - destruct (str_eqb k' k) eqn:E; simpl.
    + now rewrite str_eqb_refl.
    + now rewrite E.
Qed.

Lemma dict_get_set_other (k n : str) (v : RawDevice) (d : Inventory) :
  k <> n -> dict_get n (dict_set k v d) = dict_get n d.
Proof.
  intros Hkn. induction d as [|[k' v'] d IH]; simpl.
  - apply str_eqb_neq in Hkn. now rewrite Hkn.
  - destruct (str_eqb k' k) eqn:E; simpl.
    + apply str_eqb_eq in E. subst k'.
      apply str_eqb_neq in Hkn. now rewrite Hkn.
    + destruct (str_eqb k' n); [reflexivity | exact IH].
Qed.

Lemma dict_set_keys (k : str) (v : RawDevice) (d : Inventory) (n : str) :
  In n (map fst (dict_set k v d)) <-> n = k \/ In n (map fst d).
Proof.
  induction d as [|[k' v'] d IH]; simpl.
  - intuition.
  - destruct (str_eqb k' k) eqn:E; simpl.
    + apply str_eqb_eq in E. subst k'. intuition.
    + rewrite IH. intuition.
Qed.

Lemma dict_set_NoDup (k : str) (v : RawDevice) (d : Inventory) :
  NoDup (map fst d) -> NoDup (map fst (dict_set k v d)).
Proof.
  induction d as [|[k' v'] d IH]; simpl; intros Hnd.
  - repeat constructor. intros [].
  - inversion Hnd as [|? ? Hk' Hd]; subst.
    destruct (str_eqb k' k) eqn:E; simpl.
    + apply str_eqb_eq in E. subst k'. now constructor.
    + constructor; [|now apply IH].
      rewrite dict_set_keys. intros [-> | Hin]; [|contradiction].
      now rewrite str_eqb_refl in E.
Qed.

Lemma dict_set_well_keyed (k : str) (v : RawDevice) (d : Inventory) :
  raw_name v = Some k -> well_keyed d -> well_keyed (dict_set k v d).
Proof.
  unfold well_keyed. intros Hv. induction d as [|[k' v'] d IH]; simpl; intros Hd k0 v0.
  - intros [H|[]]. now injection H as <- <-.
  - destruct (str_eqb k' k) eqn:E; simpl.
    + intros [H|H]; [now injection H as <- <- | apply Hd; now right].
    + intros [H|H]; [apply Hd; now left|].
      apply IH; [|exact H]. intros k1 v1 H1. apply Hd. now right.
Qed.

Lemma build_inventory_spec (devices_list : list RawDevice) :
  Forall has_name devices_list ->
  forall acc,
    exists d,
      build_inventory devices_list acc = Returned d
      /\ (forall n, dict_get n d
                    = match last_named n devices_list with
                      | Some device => Some device
                      | None => dict_get n acc
                      end)
      /\ (NoDup (map fst acc) -> NoDup (map fst d))
      /\ (well_keyed acc -> well_keyed d)
      /\ (forall n, In n (map fst d) <->
                    In n (map fst acc)
                    \/ exists device, In device devices_list /\ raw_name device = Some n).
Proof.
  induction 1 as [|device l Hdev Hl IH]; intros acc.
  - exists acc. simpl. repeat split; try tauto.
    intros [H|[dv [[] _]]]. exact H.
  - simpl. unfold has_name in Hdev.
    destruct (raw_name device) as [m|] eqn:Em; [|contradiction].
    destruct (IH (dict_set m device acc)) as (d & Hb & Hget & Hnd & Hwk & Hkeys).
    exists d. split; [exact Hb|]. split; [|split; [|split]].
    + intros n. rewrite Hget. destruct (last_named n l); [reflexivity|].
      unfold named. rewrite Em. destruct (str_eqb m n) eqn:E.
      * apply str_eqb_eq in E. subst n. apply dict_get_set_same.
      * apply str_eqb_neq in E. now apply dict_get_set_other.
    + intros H. now apply Hnd, dict_set_NoDup.
    + intros H. now apply Hwk, dict_set_well_keyed.
    + intros n. rewrite Hkeys, dict_set_keys. split.
      * intros [[-> | H] | [dv [Hin Hn]]].
        -- right. exists device. split; [now left | exact Em].
        -- now left.
        -- right. exists dv. split; [now right | exact Hn].
      * intros [H | [dv [[<- | Hin] Hn]]].
        -- left. now right.
        -- left. left. congruence.
        -- right. now exists dv.
Qed.

Lemma build_inventory_nameless (devices_list : list RawDevice) :
  (exists device, In device devices_list /\ raw_name device = None) ->
  forall acc, build_inventory devices_list acc = Raised (lit "'name'").
Proof.
  induction devices_list as [|device l IH]; intros [dv [Hin Hn]] acc.
  - destruct Hin.
  - simpl. destruct (raw_name device) as [m|] eqn:Em; [|reflexivity].
    apply IH. destruct Hin as [<- | Hin]; [congruence | now exists dv].
Qed.

Lemma nameless_or_named (devices_list : list RawDevice) :
  Forall has_name devices_list
  \/ exists device, In device devices_list /\ raw_name device = None.
Proof.
  induction devices_list as [|device l [IH|[dv [Hin Hn]]]].
  - left. constructor.
  - destruct (raw_name device) as [m|] eqn:Em.
    + left. constructor; [unfold has_name; congruence | exact IH].
    + right. exists device. split; [now left | exact Em].
  - right. exists dv. split; [now right | exact Hn].
Qed.

Lemma last_named_found (n : str) (devices_list : list RawDevice) :
  last_named n devices_list <> None <->
  exists device, In device devices_list /\ raw_name device = Some n.
Proof.
  induction devices_list as [|x l IH]; simpl.
  - split; [intros H; now contradiction H | intros [dv [[] _]]].
  - destruct (last_named n l) as [later|].
    + split; [|discriminate]. intros _.
      destruct (proj1 IH ltac:(discriminate)) as [dv [Hin Hn]].
      exists dv. split; [now right | exact Hn].
    + unfold named. split.
      * destruct (raw_name x) as [m|] eqn:Em; [|intros H; now contradiction H].
        destruct (str_eqb m n) eqn:Emn; [|intros H; now contradiction H].
        apply str_eqb_eq in Emn. subst m. intros _.
        exists x. split; [now left | exact Em].
      * intros [dv [[<- | Hin] Hn]].
        -- rewrite Hn, str_eqb_refl. discriminate.
        -- exfalso. apply (proj2 IH); [now exists dv | reflexivity].
Qed.

(** X17: when every entry of the inventory file has a name, looking a name
    up gives the last entry of that name: a later entry replaces an
    earlier one of the same name, and a name that no entry has is not
    found. *)
Theorem find_device_gives_last_entry (devices_list : list RawDevice) (n : str) :
  Forall has_name devices_list ->
  find_device (load_devices (Returned (Some devices_list))) n
  = last_named n devices_list.
Proof.
  intros H. unfold find_device, load_devices.
  destruct (build_inventory_spec devices_list H []) as (d & -> & Hget & _).
  rewrite Hget. now destruct (last_named n devices_list).
Qed.

Lemma find_device_gives_last_entry_witness :
  find_device
    (load_devices (Returned (Some [switch "sw1" "10.0.0.1"; switch "sw2" "10.0.0.2";
                                   switch "sw1" "10.0.0.3"])))
    (lit "sw1")
  = Some (switch "sw1" "10.0.0.3").
Proof.
  rewrite find_device_gives_last_entry.
  - reflexivity.
  - repeat constructor; discriminate.
Defined.

(** X18: one entry without name empties the inventory: the deployer then
    knows no device at all. *)
Theorem nameless_entry_empties_inventory
    (devices_list : list RawDevice) (device : RawDevice) :
  In device devices_list -> raw_name device = None ->
  load_devices (Returned (Some devices_list)) = []
  /\ forall n, find_device (load_devices (Returned (Some devices_list))) n = None.
Proof.
  intros Hin Hn. unfold load_devices.
  rewrite build_inventory_nameless by now exists device. split; reflexivity.
Qed.

Lemma nameless_entry_empties_inventory_witness :
  find_device
    (load_devices
       (Returned (Some [switch "sw1" "10.0.0.1";
                        {| raw_name := None; raw_host := Some (lit "10.0.0.2");
                           raw_device_type := None |}])))
    (lit "sw1")
  = None.
Proof.
  apply (nameless_entry_empties_inventory _
           {| raw_name := None; raw_host := Some (lit "10.0.0.2");
              raw_device_type := None |}).
  - right. now left.
  - reflexivity.
Defined.

(** X19: whatever the inventory file holds, the inventory loaded has every
    name once, every device under its own name, and the list of device
    names is the list of the names that can be found. *)
Theorem loaded_inventory_is_well_formed
    (loaded : outcome (option (list RawDevice))) :
  let devices := load_devices loaded in
  NoDup (get_device_list devices)
  /\ (forall k device, In (k, device) devices -> raw_name device = Some k)
  /\ (forall n, In n (get_device_list devices) <-> find_device devices n <> None).
Proof.
  assert (Hempty : NoDup (get_device_list [])
                   /\ (forall k device, In (k, device) (@nil (str * RawDevice)) ->
                                        raw_name device = Some k)
                   /\ (forall n, In n (get_device_list []) <-> find_device [] n <> None)).
  { split; [constructor|]. split; [intros k dv []|].
    intros n. simpl. split; [intros [] | intros H; now apply H]. }
  destruct loaded as [[l|]|e]; simpl; try exact Hempty.
  destruct (nameless_or_named l) as [Hall | Hsome].
  - destruct (build_inventory_spec l Hall []) as (d & -> & Hget & Hnd & Hwk & Hkeys).
    unfold get_device_list, find_device.
    split; [apply Hnd; constructor|]. split; [apply Hwk; intros k v []|].
    intros n. rewrite Hkeys, Hget, <- last_named_found. simpl.
    destruct (last_named n l); split.
    + discriminate.
    + intros _. right. discriminate.
    + intros [[] | H]. now contradiction H.
    + intros H. now contradiction H.
  - rewrite (build_inventory_nameless l Hsome). exact Hempty.
Qed.

End InventorySpec.

(* ================================================================== *)
(** ** The commands of the deployer *)

Module DeploySpec.
Import Deployer DeployerProps NormalizerMore.

Lemma lstrip_head (s : str) :
  match lstrip s with [] => True | c :: _ => is_space c = false end.
Proof.
  induction s as [|c s IH]; simpl; [exact I|].
  destruct (is_space c) eqn:E; [exact IH | exact E].
Qed.

Lemma lstrip_suffix (s : str) : exists ws, s = ws ++ lstrip s.
Proof.
  induction s as [|c s [ws IH]]; simpl; [now exists []|].
  destruct (is_space c); [|now exists []].
  exists (c :: ws). simpl. now rewrite <- IH.
Qed.

Lemma lstrip_idempotent (s : str) : lstrip (lstrip s) = lstrip s.
Proof.
  pose proof (lstrip_head s) as H. destruct (lstrip s) as [|c r]; [reflexivity|].
  simpl. now rewrite H.
Qed.

Lemma rstrip_prefix (s : str) : exists ws, s = rstrip s ++ ws.
Proof.
  unfold rstrip. destruct (lstrip_suffix (rev s)) as [ws H].
  exists (rev ws). rewrite <- rev_app_distr, <- H. now rewrite rev_involutive.
Qed.

Lemma strip_idempotent (s : str) : strip (strip s) = strip s.
Proof.
  unfold strip at 1.
  assert (Hl : lstrip (strip s) = strip s).
  { unfold strip. pose proof (lstrip_head s) as Hh.
    destruct (rstrip_prefix (lstrip s)) as [ws Hws].
    destruct (rstrip (lstrip s)) as [|c r]; [reflexivity|].
    rewrite Hws in Hh. simpl in Hh. simpl. now rewrite Hh. }
  rewrite Hl. unfold strip, rstrip.
  now rewrite rev_involutive, lstrip_idempotent.
Qed.

Lemma Forall_lstrip (P : N -> Prop) (s : str) : Forall P s -> Forall P (lstrip s).
Proof.
  induction 1 as [|c s Hc Hs IH]; simpl; [constructor|].
  destruct (is_space c); [exact IH | now constructor].
Qed.

Lemma Forall_strip (P : N -> Prop) (s : str) : Forall P s -> Forall P (strip s).
Proof.
  intros H. unfold strip, rstrip.
  apply Forall_rev, Forall_lstrip, Forall_rev, Forall_lstrip, H.
Qed.

Lemma is_command_strip (line : str) : is_command line = true -> strip line <> [].
Proof.
  unfold is_command. destruct (strip line); [discriminate | discriminate].
Qed.

(** What the loop of the simulated deployment does with the commands
    and with the oracle. *)
Lemma deployment_loop_spec (commands : list str) :
  forall successful failed o,
    let '(s, f, o') := deployment_loop commands successful failed o in
    length s + length f = length successful + length failed + length commands
    /\ MockBackup.drawn o' = MockBackup.drawn o + length commands.
Proof.
  induction commands as [|c cs IH]; intros successful failed o.
  - simpl. split; lia.
  - cbn [deployment_loop MockBackup.bind MockBackup.random].
    destruct (MockBackup.Qltb _ _);
      match goal with |- context [deployment_loop cs ?s0 ?f0 ?o0] =>
        specialize (IH s0 f0 o0); destruct (deployment_loop cs s0 f0 o0) as [[s f] o']
      end;
      rewrite length_app in IH; simpl in IH; simpl length; split; lia.
Qed.

(** X20: every command sent to a device is a non-empty line of the file with
    the whitespace around it removed: stripping it again changes
    nothing, and it holds no line boundary; there are at most as many
    commands as lines. *)
Theorem commands_are_stripped_lines (config_content : str) :
  Forall (fun command => command <> [] /\ strip command = command /\ one_line command)
         (parse_commands config_content)
  /\ length (parse_commands config_content) <= length (splitlines config_content).
Proof.
  unfold parse_commands. split.
  - apply Forall_forall. intros command Hc.
    apply in_map_iff in Hc. destruct Hc as [line [<- Hl]].
    apply filter_In in Hl. destruct Hl as [Hin Hcmd].
    split; [now apply is_command_strip|]. split; [apply strip_idempotent|].
    apply Forall_strip.
    pose proof (splitlines_lines config_content) as H.
    rewrite Forall_forall in H. now apply H.
  - rewrite length_map. apply filter_length_le.
Qed.

(** X21: the comment test looks at the line as it stands, not at its
    stripped form: an indented line that is not blank is always a
    command, also when it is a comment. *)
Theorem indented_comment_is_a_command (config_content line rest : str) (c : N) :
  In line (splitlines config_content) ->
  line = c :: rest -> is_space c = true -> strip line <> [] ->
  In (strip line) (parse_commands config_content).
Proof.
  intros Hin -> Hc Hs. unfold parse_commands. apply in_map, filter_In.
  split; [exact Hin|]. unfold is_command.
  destruct (strip (c :: rest)); [contradiction|].
  assert (H33 : chr_eqb c 33 = false).
  { unfold chr_eqb. destruct (N.eqb c 33) eqn:E; [|reflexivity].
    apply N.eqb_eq in E. subst c. discriminate Hc. }
  assert (H35 : chr_eqb c 35 = false).
  { unfold chr_eqb. destruct (N.eqb c 35) eqn:E; [|reflexivity].
    apply N.eqb_eq in E. subst c. discriminate Hc. }
  cbn [lit String.list_ascii_of_string map startswith Ascii.N_of_ascii].
  simpl. now rewrite H33, H35.
Qed.

Lemma indented_comment_is_a_command_witness :
  In (lit "! old uplink") (parse_commands (lit "hostname sw1" ++ nl ++ lit "  ! old uplink")).
Proof.
  apply (indented_comment_is_a_command
           (lit "hostname sw1" ++ nl ++ lit "  ! old uplink")
           (lit "  ! old uplink") (lit " ! old uplink") 32%N).
  - right. now left.
  - reflexivity.
  - reflexivity.
  - discriminate.
Defined.

Section DeployFacts.

Variable fs : FileSystem.
Variable devices : Inventory.

(** X22: a dry run draws no number and succeeds exactly when the device is
    in the inventory and the file exists and can be read; it then
    reports the number of commands of the file and the first five of
    them. *)
Theorem dry_run_succeeds_iff_readable
    (device_name config_file : str) (o : MockBackup.Oracle) :
  let r := fst (deploy_config fs devices device_name config_file true o) in
  snd (deploy_config fs devices device_name config_file true o) = o
  /\ (success r = true <->
      find_device devices device_name <> None
      /\ path_exists fs config_file = true
      /\ exists config_content, read_file fs config_file = Returned config_content)
  /\ (forall config_content,
        success r = true -> read_file fs config_file = Returned config_content ->
        commands_count r = Some (length (parse_commands config_content))
        /\ commands_preview r = Some (firstn 5 (parse_commands config_content))
        /\ dry_run r = Some true).
Proof.
  unfold deploy_config.
  destruct (find_device devices device_name) as [dv|].
  - destruct (path_exists fs config_file); simpl.
    + destruct (read_file fs config_file) as [content|e]; simpl.
      * split; [reflexivity|]. split.
        -- split; [|reflexivity]. intros _.
           split; [discriminate|]. split; [reflexivity|]. now exists content.
        -- intros c _ H. injection H as <-. repeat split.
      * split; [reflexivity|]. split.
        -- split; [discriminate|]. intros (_ & _ & [c H]). discriminate H.
        -- intros c H. discriminate H.
    + split; [reflexivity|]. split.
      * split; [discriminate|]. intros (_ & H & _). discriminate H.
      * intros c H. discriminate H.
  - simpl. split; [reflexivity|]. split.
    + split; [discriminate|]. intros (H & _). now contradiction H.
    + intros c H. discriminate H.
Qed.

(** X23: a real run on a device with name and host and a readable file
    draws one number for each command and accounts for all of them:
    the commands that succeeded and those that failed add up to the
    commands of the file, the run succeeds exactly when none failed,
    and at most ten failed commands are listed.  A file without any
    command is deployed with success. *)
Theorem real_run_accounts_for_every_command
    (device_name config_file config_content n h : str) (entry : RawDevice)
    (o : MockBackup.Oracle) :
  find_device devices device_name = Some entry ->
  raw_name entry = Some n -> raw_host entry = Some h ->
  path_exists fs config_file = true ->
  read_file fs config_file = Returned config_content ->
  let total := length (parse_commands config_content) in
  let r := fst (deploy_config fs devices device_name config_file false o) in
  let o' := snd (deploy_config fs devices device_name config_file false o) in
  MockBackup.drawn o' = MockBackup.drawn o + total
  /\ commands_total r = Some total
  /\ device r = n
  /\ exists successful,
       commands_successful r = Some successful
       /\ successful <= total
       /\ (success r = true <-> successful = total)
       /\ (success r = false ->
           commands_failed r = Some (total - successful)
           /\ exists listed, failed_commands r = Some listed /\ length listed <= 10)
       /\ (total = 0 -> success r = true).
Proof.
  intros Hfind Hn Hh Hex Hread total r o'. subst total r o'.
  unfold deploy_config. rewrite Hfind, Hex, Hread. cbn [negb].
  unfold simulate_deployment. rewrite Hn, Hh.
  pose proof (deployment_loop_spec (parse_commands config_content) [] [] o) as Hloop.
  destruct (deployment_loop (parse_commands config_content) [] [] o) as [[s f] o1].
  simpl length in Hloop. destruct Hloop as (Hsum & Hdrawn).
  destruct f as [|fc f'].
  - cbn [fst snd success commands_total device commands_successful].
    split; [exact Hdrawn|]. split; [reflexivity|]. split; [reflexivity|].
    exists (length s). simpl in Hsum.
    split; [reflexivity|]. split; [lia|]. split; [|split].
    + split; [lia | reflexivity].
    + discriminate.
    + reflexivity.
  - cbn [fst snd success commands_total device commands_successful commands_failed
         failed_commands].
    split; [exact Hdrawn|]. split; [reflexivity|]. split; [reflexivity|].
    exists (length s). simpl in Hsum.
    split; [reflexivity|]. split; [lia|]. split; [|split].
    + split; [discriminate | simpl; lia].
    + intros _. split; [f_equal; simpl; lia|].
      eexists. split; [reflexivity|]. apply firstn_le_length.
    + simpl. lia.
Qed.

(** X24: a device without host passes the dry run and fails the real run,
    before any command is tried. *)
Theorem missing_host_fails_the_real_run_only
    (device_name config_file config_content n : str) (entry : RawDevice)
    (o : MockBackup.Oracle) :
  find_device devices device_name = Some entry ->
  raw_name entry = Some n -> raw_host entry = None ->
  path_exists fs config_file = true ->
  read_file fs config_file = Returned config_content ->
  success (fst (deploy_config fs devices device_name config_file true o)) = true
  /\ deploy_config fs devices device_name config_file false o
     = (refusal (lit "Deployment simulation failed: 'host'") n (Some config_file), o).
Proof.
  intros Hfind Hn Hh Hex Hread.
  unfold deploy_config. rewrite Hfind, Hex, Hread. cbn [negb].
  unfold simulate_deployment. rewrite Hn, Hh. split; reflexivity.
Qed.

End DeployFacts.

Lemma real_run_accounts_for_every_command_witness :
  commands_total
    (fst (deploy_config (one_file (lit "! header" ++ nl ++ lit "hostname sw1" ++ nl
                                   ++ lit " no shutdown"))
            (load_devices (Returned (Some [switch "sw1" "10.0.0.1"])))
            (lit "sw1") (lit "update.cfg") false (MockBackup.oracle FleetProps.calm)))
  = Some 2.
Proof.
  apply (real_run_accounts_for_every_command
           (one_file (lit "! header" ++ nl ++ lit "hostname sw1" ++ nl
                      ++ lit " no shutdown"))
           (load_devices (Returned (Some [switch "sw1" "10.0.0.1"])))
           (lit "sw1") (lit "update.cfg")
           (lit "! header" ++ nl ++ lit "hostname sw1" ++ nl ++ lit " no shutdown")
           (lit "sw1") (lit "10.0.0.1") (switch "sw1" "10.0.0.1")
           (MockBackup.oracle FleetProps.calm));
    reflexivity.
Defined.

Lemma missing_host_fails_the_real_run_only_witness :
  success
    (fst (deploy_config (one_file (lit "hostname sw1"))
            [(lit "sw1", {| raw_name := Some (lit "sw1"); raw_host := None;
                            raw_device_type := None |})]
            (lit "sw1") (lit "update.cfg") false (MockBackup.oracle FleetProps.calm)))
  = false.
Proof.
  rewrite (proj2 (missing_host_fails_the_real_run_only
                    (one_file (lit "hostname sw1"))
                    [(lit "sw1", {| raw_name := Some (lit "sw1"); raw_host := None;
                                    raw_device_type := None |})]
                    (lit "sw1") (lit "update.cfg") (lit "hostname sw1") (lit "sw1")
                    {| raw_name := Some (lit "sw1"); raw_host := None;
                       raw_device_type := None |}
                    (MockBackup.oracle FleetProps.calm)
                    eq_refl eq_refl eq_refl eq_refl eq_refl)).
  reflexivity.
Defined.

End DeploySpec.

(* ================================================================== *)
(** ** The report of a comparison: properties *)

Module ReportSpec.
Import DiffChecker CheckerProps DiffReport.

Lemma fold_difference_lines (diffs : list DifferenceRecord) :
  forall lines,
    fold_left (fun lines diff => lines ++ difference_lines diff) diffs lines
    = lines ++ flat_map difference_lines diffs.
Proof.
  induction diffs as [|d ds IH]; intros lines; simpl.
  - now rewrite app_nil_r.
  - rewrite IH. now rewrite <- app_assoc.
Qed.

(** X25: the report on a device with fewer than two snapshots: a result
    without the key [identical] is reported like one with differences,
    so the report announces 0 differences before it gives the error. *)
Theorem report_of_insufficient_backups
    (env : Env) (patterns : list str) (device_name : str) (n : nat) :
  length (get_all_backups_for_device env device_name) = n ->
  n < 2 ->
  generate_report (Some (compare_latest_two_backups env patterns device_name))
  = join nl
      [ rule; lit "CONFIGURATION COMPARISON REPORT"; rule;
        lit "Device: " ++ device_name;
        lit "Date: Unknown";
        lit "Summary: No summary";
        [];
        [0x1F50D%N] ++ lit " Found 0 differences:";
        [];
        [0x274C%N] ++ lit " Error: Insufficient backups: " ++ str_of_nat n
          ++ lit " found, need at least 2";
        rule ].
Proof.
  intros Hlen Hn. unfold compare_latest_two_backups.
  rewrite Hlen. apply Nat.ltb_lt in Hn. rewrite Hn. reflexivity.
Qed.

Lemma report_of_insufficient_backups_witness :
  generate_report
    (Some (compare_latest_two_backups three_backups default_patterns
             (lit "other-switch-01")))
  = join nl
      [ rule; lit "CONFIGURATION COMPARISON REPORT"; rule;
        lit "Device: other-switch-01";
        lit "Date: Unknown";
        lit "Summary: No summary";
        [];
        [0x1F50D%N] ++ lit " Found 0 differences:";
        [];
        [0x274C%N] ++ lit " Error: Insufficient backups: 1 found, need at least 2";
        rule ].
Proof.
  apply (report_of_insufficient_backups three_backups default_patterns
           (lit "other-switch-01") 1); [reflexivity | lia].
Defined.

(** X26: the report of a comparison of two texts has one block for each
    difference, in the order of the line numbers: the heading
    "Line n:", the old value after "  - " unless it is empty, the new
    value after "  + " unless it is empty, and an empty line.  As the
    two values of a difference are never equal, every block shows at
    least one of them; an identical result has no block at all. *)
Theorem report_shows_every_difference
    (env : Env) (patterns : list str) (text_a text_b path_a path_b device_name : str) :
  let r := compare_texts env patterns text_a text_b path_a path_b device_name in
  exists diffs,
    differences r = Some diffs
    /\ report_lines r
       = [ rule; lit "CONFIGURATION COMPARISON REPORT"; rule;
           lit "Device: " ++ device_name;
           lit "Date: " ++ isoformat (now env);
           lit "Summary: " ++ get_or (summary r) [];
           [] ]
         ++ match diffs with
            | [] => [ [0x2705%N]
                      ++ lit " Configurations are identical - no changes detected" ]
            | _ => [ [0x1F50D%N] ++ lit " Found " ++ str_of_nat (length diffs)
                     ++ lit " differences:"; [] ]
                   ++ flat_map difference_lines diffs
            end
         ++ [rule]
    /\ Forall (fun diff => 3 <= length (difference_lines diff) <= 4) diffs.
Proof.
  intros r. subst r. unfold compare_texts.
  set (diffs := compare_lines _ _).
  exists diffs. split; [reflexivity|]. split.
  - unfold report_lines.
    cbn [device comparison_date summary backups_compared identical differences_count
         differences error get_or].
    destruct diffs as [|d ds] eqn:E.
    + reflexivity.
    + cbn [length Nat.eqb]. rewrite fold_difference_lines.
      now rewrite <- !app_assoc.
  - subst diffs. rewrite DiffSpec.compare_lines_positional.
    apply Forall_forall. intros d Hd.
    apply DiffSpec.positional_diff_In in Hd. destruct Hd as (i & _ & Hne & ->).
    unfold difference_lines, record_at.
    cbn [old_value new_value line_number].
    destruct (nth i (splitlines (filter_ignored_lines patterns text_a)) []);
      destruct (nth i (splitlines (filter_ignored_lines patterns text_b)) []);
      simpl; try lia.
    now contradiction Hne.
Qed.

End ReportSpec.

(* ================================================================== *)
(** ** The mock configurations and the diff checker *)

Module ConfigsSpec.
Import DiffChecker CheckerProps MoreProps NormalizerSpec NormalizerMore MockConfigs.

(** Splitting a text at a line feed. *)
Lemma splitlines_from_app_newline (n : nat) :
  forall X cur Y,
    length X <= n ->
    splitlines_from cur (X ++ 10%N :: Y)
    = splitlines_from cur (X ++ [10%N]) ++ splitlines_from [] Y.
Proof.
  induction n as [|n IH]; intros X cur Y Hn.
  - destruct X; [|simpl in Hn; lia]. simpl. destruct Y; reflexivity.
  - destruct X as [|c X']; [simpl; destruct Y; reflexivity|].
    simpl in Hn. cbn [app splitlines_from].
    destruct (is_linebreak c).
    + destruct X' as [|c' X''].
      * cbn [app]. destruct (N.eqb c 13); cbn [andb N.eqb Pos.eqb splitlines_from app].
        -- reflexivity.
        -- simpl. destruct Y; reflexivity.
      * cbn [app]. destruct (N.eqb c 13 && N.eqb c' 10).
        -- rewrite (IH X'') by (simpl in Hn; lia). reflexivity.
        -- pose proof (IH (c' :: X'') [] Y ltac:(lia)) as H.
           cbn [app] in H. rewrite H. reflexivity.
    + apply IH. lia.
Qed.

Lemma filtered_lines_app_newline (patterns : list str) (X Y : str) :
  filtered_lines patterns (X ++ nl ++ Y)
  = filtered_lines patterns (X ++ nl) ++ filtered_lines patterns Y.
Proof.
  rewrite !filtered_lines_filter. unfold splitlines.
  change (X ++ nl ++ Y) with (X ++ 10%N :: Y). change (X ++ nl) with (X ++ [10%N]).
  rewrite (splitlines_from_app_newline (length X)) by lia.
  apply filter_app.
Qed.

Lemma join_cons (p : str) (tl : list str) :
  tl <> [] -> join nl (p :: tl) = p ++ nl ++ join nl tl.
Proof. destruct tl; [contradiction | reflexivity]. Qed.

(** The kept lines of a text given by its parts, around one part. *)
Lemma filtered_lines_around (patterns : list str) (pre : list str) (g : str) (tl : list str) :
  tl <> [] ->
  filtered_lines patterns (join nl (pre ++ g :: tl))
  = flat_map (fun p => filtered_lines patterns (p ++ nl)) pre
    ++ filtered_lines patterns (g ++ nl)
    ++ filtered_lines patterns (join nl tl).
Proof.
  intros Htl. induction pre as [|p pre IH].
  - cbn [app flat_map]. rewrite join_cons by assumption.
    apply filtered_lines_app_newline.
  - cbn [app flat_map]. rewrite join_cons by (destruct pre; discriminate).
    rewrite filtered_lines_app_newline, IH. now rewrite <- app_assoc.
Qed.

Lemma filtered_lines_one_line_part (patterns : list str) (g : str) :
  one_line g ->
  filtered_lines patterns (g ++ nl) = if dropped patterns g then [] else [g].
Proof.
  intros Hg. rewrite filtered_lines_filter. unfold splitlines.
  rewrite <- (app_nil_r nl), (splitlines_from_newline g Hg). simpl.
  now destruct (dropped patterns g).
Qed.

Lemma lstrip_snoc (l : str) (c : N) :
  is_space c = false -> exists l', lstrip (l ++ [c]) = l' ++ [c].
Proof.
  intros Hc. induction l as [|x l [l' IH]]; simpl.
  - rewrite Hc. now exists [].
  - destruct (is_space x); [now exists l' | now exists (x :: l)].
Qed.

(** Stripping keeps a first character that is no whitespace. *)
Lemma strip_head (c : N) (s : str) :
  is_space c = false -> exists r, strip (c :: s) = c :: r.
Proof.
  intros Hc. unfold strip. simpl. rewrite Hc. unfold rstrip. simpl.
  destruct (lstrip_snoc (rev s) c Hc) as [l' ->].
  exists (rev l'). now rewrite rev_app_distr.
Qed.

Lemma rstrip_app (p w : str) :
  is_blank w = false -> rstrip (p ++ w) = p ++ rstrip w.
Proof.
  intros Hw. unfold rstrip. rewrite rev_app_distr, lstrip_app.
  rewrite is_blank_rev, Hw. now rewrite rev_app_distr, rev_involutive.
Qed.

(** Stripping keeps two first characters when a third one that is no
    whitespace follows. *)
Lemma strip_head3 (c1 c2 c3 : N) (s : str) :
  is_space c1 = false -> is_space c3 = false ->
  exists r, strip (c1 :: c2 :: c3 :: s) = c1 :: c2 :: c3 :: r.
Proof.
  intros H1 H3. unfold strip. simpl. rewrite H1.
  change (c1 :: c2 :: c3 :: s) with ([c1; c2] ++ c3 :: s).
  rewrite rstrip_app by (simpl; now rewrite H3).
  assert (Hr : exists r, rstrip (c3 :: s) = c3 :: r).
  { unfold rstrip. simpl. destruct (lstrip_snoc (rev s) c3 H3) as [l' ->].
    exists (rev l'). now rewrite rev_app_distr. }
  destruct Hr as [r ->]. now exists r.
Qed.

Lemma dropped_by (patterns : list str) (p line : str) :
  In p patterns -> startswith (strip line) p = true -> dropped patterns line = true.
Proof. intros Hin Hs. unfold dropped. apply existsb_exists. now exists p. Qed.

(** A line that starts with an exclamation mark is dropped by the
    default patterns, and so is one that starts with a hash. *)
Lemma dropped_bang (s : str) : dropped default_patterns (0x21%N :: s) = true.
Proof.
  destruct (strip_head 0x21%N s eq_refl) as [r Hr].
  apply (dropped_by _ (lit "!")); [do 3 right; now left|].
  rewrite Hr. destruct r; reflexivity.
Qed.

Lemma dropped_hash (s : str) : dropped default_patterns (0x23%N :: s) = true.
Proof.
  destruct (strip_head 0x23%N s eq_refl) as [r Hr].
  apply (dropped_by _ (lit "#")); [do 4 right; now left|].
  rewrite Hr. destruct r; reflexivity.
Qed.

Lemma one_line_forallb (s : str) :
  forallb (fun c => negb (is_linebreak c)) s = true -> one_line s.
Proof.
  intros H. apply Forall_forall. intros c Hc.
  rewrite forallb_forall in H. specialize (H c Hc).
  now apply negb_true_iff in H.
Qed.

Ltac closed_one_line := apply one_line_forallb; reflexivity.

Lemma digit_one_line (n : N) : is_linebreak (digit n) = false.
Proof.
  unfold digit. pose proof (N.mod_lt n 10 ltac:(discriminate)) as H.
  generalize dependent (n mod 10)%N. intros d Hd.
  unfold is_linebreak. cbn [existsb].
  repeat (rewrite (proj2 (N.eqb_neq _ _)) by lia). reflexivity.
Qed.

Lemma zero_pad_one_line (w : nat) (n : N) : one_line (zero_pad w n).
Proof.
  unfold one_line. revert n. induction w as [|w IH]; intros n; simpl; [constructor|].
  apply Forall_app. split; [apply IH|]. constructor; [apply digit_one_line | constructor].
Qed.

Lemma datetime_str_one_line (d : datetime) : one_line (datetime_str d).
Proof.
  unfold datetime_str.
  repeat match goal with
         | |- one_line (zero_pad _ _ ++ _) =>
             apply Forall_app; split; [apply zero_pad_one_line|]
         | |- Forall _ (zero_pad _ _ ++ _) =>
             apply Forall_app; split; [apply zero_pad_one_line|]
         | |- Forall _ (lit _ ++ _) =>
             apply Forall_app; split; [closed_one_line|]
         end.
  destruct (N.eqb (microsecond d) 0); [constructor|].
  apply Forall_app. split; [closed_one_line | apply zero_pad_one_line].
Qed.

Lemma generated_line_one_line (mark : N) (d : datetime) :
  is_linebreak mark = false ->
  one_line (mark :: lit " Generated: " ++ datetime_str d).
Proof.
  intros Hm. unfold one_line. constructor; [exact Hm|].
  apply Forall_app. split; [closed_one_line | apply datetime_str_one_line].
Qed.

(** A dropped line between two parts of a text leaves no trace. *)
Lemma dropped_line_is_invisible
    (patterns : list str) (pre : list str) (g g' : str) (tl : list str) :
  one_line g -> one_line g' ->
  dropped patterns g = true -> dropped patterns g' = true -> tl <> [] ->
  filter_ignored_lines patterns (join nl (pre ++ g :: tl))
  = filter_ignored_lines patterns (join nl (pre ++ g' :: tl)).
Proof.
  intros Hg Hg' Hd Hd' Htl. rewrite !filter_ignored_lines_join.
  rewrite !filtered_lines_around by assumption.
  rewrite !filtered_lines_one_line_part by assumption.
  now rewrite Hd, Hd'.
Qed.

(** X27: the text that the normalizer makes of a mock configuration with
    the default patterns does not depend on the time of generation:
    the line "Generated:" is a comment.  Hence two configurations of
    one device that were given the same numbers compare as identical,
    whenever they were generated. *)
Theorem generation_time_is_ignored
    (device_type device_name : str) (t t' : datetime) (octet vlan_octet : nat) :
  filter_ignored_lines default_patterns
    (config_text device_type device_name t octet vlan_octet)
  = filter_ignored_lines default_patterns
      (config_text device_type device_name t' octet vlan_octet)
  /\ forall env path_a path_b,
       identical (compare_texts env default_patterns
                    (config_text device_type device_name t octet vlan_octet)
                    (config_text device_type device_name t' octet vlan_octet)
                    path_a path_b device_name)
       = Some true.
Proof.
  assert (H : filter_ignored_lines default_patterns
                (config_text device_type device_name t octet vlan_octet)
              = filter_ignored_lines default_patterns
                  (config_text device_type device_name t' octet vlan_octet)).
  { unfold config_text.
    destruct (str_eqb device_type (lit "cisco_ios"));
      [|destruct (str_eqb device_type (lit "juniper_junos"));
        [|destruct (str_eqb device_type (lit "arista_eos"))]].
    - apply (dropped_line_is_invisible default_patterns [_; _]);
        try apply (generated_line_one_line 0x21%N); try reflexivity;
        try apply dropped_bang; discriminate.
    - apply (dropped_line_is_invisible default_patterns [_]);
        try apply (generated_line_one_line 0x23%N); try reflexivity;
        try apply dropped_hash; discriminate.
    - apply (dropped_line_is_invisible default_patterns [_; _]);
        try apply (generated_line_one_line 0x21%N); try reflexivity;
        try apply dropped_bang; discriminate.
    - apply (dropped_line_is_invisible default_patterns [_; _]);
        try apply (generated_line_one_line 0x21%N); try reflexivity;
        try apply dropped_bang; discriminate. }
  split; [exact H|].
  intros env path_a path_b. unfold compare_texts. cbn [identical]. rewrite H.
  rewrite DiffSpec.compare_lines_positional.
  now rewrite (proj2 (DiffMore.positional_diff_nil _ _) (fun i => eq_refl)).
Qed.

Lemma nth_drop_final_empty (parts : list str) (i : nat) :
  nth i (drop_final_empty parts) [] = nth i parts [].
Proof.
  revert i. induction parts as [|p ps IH]; intros i; [reflexivity|].
  destruct ps as [|q ps'].
  - simpl. destruct p; [destruct i as [|[|i]]; reflexivity | reflexivity].
  - change (drop_final_empty (p :: q :: ps')) with (p :: drop_final_empty (q :: ps')).
    destruct i; [reflexivity|]. simpl nth. apply IH.
Qed.

(** The lines that are compared are the kept lines, but for an empty
    line at the end. *)
Lemma compared_lines_nth (patterns : list str) (text : str) (i : nat) :
  nth i (splitlines (filter_ignored_lines patterns text)) []
  = nth i (filtered_lines patterns text) [].
Proof.
  rewrite filter_ignored_lines_join.
  rewrite splitlines_join by apply filtered_lines_one_line.
  apply nth_drop_final_empty.
Qed.

Lemma app_eq_same_length (A : Type) (a a' b b' : list A) :
  length a = length a' -> a ++ b = a' ++ b' -> a = a' /\ b = b'.
Proof.
  revert a'. induction a as [|x a IH]; intros [|x' a'] Hl H; simpl in *;
    try discriminate; [now split|].
  injection H as -> H. destruct (IH a' ltac:(lia) H) as [-> ->]. now split.
Qed.

Lemma zero_pad_injective (w : nat) (m n : N) :
  (m < 10 ^ N.of_nat w)%N -> (n < 10 ^ N.of_nat w)%N ->
  zero_pad w m = zero_pad w n -> m = n.
Proof.
  intros Hm Hn H. apply N.compare_eq_iff.
  rewrite <- (zero_pad_compare w m n Hm Hn), H. apply str_compare_refl.
Qed.

Ltac split_pad H :=
  apply app_eq_same_length in H; [|now rewrite !zero_pad_length];
  let Hp := fresh "Hp" in destruct H as [Hp H];
  apply zero_pad_injective in Hp; [|SelectorSpec.pad_bound|SelectorSpec.pad_bound].

Ltac split_mark H :=
  apply app_eq_same_length in H; [|reflexivity];
  let Hm := fresh "Hm" in destruct H as [Hm H]; clear Hm.

(** [str] of a [datetime] tells the [datetime]. *)
Lemma datetime_str_injective (d d' : datetime) :
  valid_datetime d -> valid_datetime d' ->
  datetime_str d = datetime_str d' -> d = d'.
Proof.
  unfold valid_datetime.
  intros (Hy & Hmo & Hd & Hh & Hmi & Hs & Hus) (Hy' & Hmo' & Hd' & Hh' & Hmi' & Hs' & Hus') H.
  unfold datetime_str in H.
  split_pad H. split_mark H. split_pad H. split_mark H. split_pad H. split_mark H.
  split_pad H. split_mark H. split_pad H. split_mark H. split_pad H.
  assert (Hmicro : microsecond d = microsecond d').
  { destruct (N.eqb (microsecond d) 0) eqn:E; destruct (N.eqb (microsecond d') 0) eqn:E'.
    - apply N.eqb_eq in E, E'. congruence.
    - discriminate H.
    - discriminate H.
    - split_mark H. apply zero_pad_injective in H;
        [exact H | SelectorSpec.pad_bound | SelectorSpec.pad_bound]. }
  destruct d, d'. simpl in *. congruence.
Qed.

(** A kept line that differs between two texts with the same parts
    before it is found by the comparison. *)
Lemma kept_line_is_compared
    (patterns : list str) (pre : list str) (g g' : str) (tl tl' : list str) :
  one_line g -> one_line g' ->
  dropped patterns g = false -> dropped patterns g' = false ->
  tl <> [] -> tl' <> [] -> g <> g' ->
  compare_lines
    (splitlines (filter_ignored_lines patterns (join nl (pre ++ g :: tl))))
    (splitlines (filter_ignored_lines patterns (join nl (pre ++ g' :: tl'))))
  <> [].
Proof.
  intros Hg Hg' Hd Hd' Htl Htl' Hne H.
  rewrite DiffSpec.compare_lines_positional in H.
  pose proof (proj1 (DiffMore.positional_diff_nil _ _) H) as Hnth.
  set (before := flat_map (fun p => filtered_lines patterns (p ++ nl)) pre).
  specialize (Hnth (length before)).
  rewrite !compared_lines_nth in Hnth.
  rewrite !filtered_lines_around in Hnth by assumption.
  rewrite !filtered_lines_one_line_part in Hnth by assumption.
  rewrite Hd, Hd' in Hnth. fold before in Hnth.
  cbn [app] in Hnth. rewrite !nth_middle in Hnth. contradiction.
Qed.

Lemma kept_bang_generated (s : str) :
  dropped sample_ignore_lines (lit "! Generated: " ++ s) = false.
Proof.
  destruct (strip_head3 0x21%N 0x20%N 0x47%N (lit "enerated: " ++ s) eq_refl eq_refl)
    as [r Hr].
  unfold dropped. change (lit "! Generated: " ++ s)
    with (0x21%N :: 0x20%N :: 0x47%N :: lit "enerated: " ++ s).
  rewrite Hr. reflexivity.
Qed.

Lemma kept_hash_generated (s : str) :
  dropped sample_ignore_lines (lit "# Generated: " ++ s) = false.
Proof.
  destruct (strip_head 0x23%N (lit " Generated: " ++ s) eq_refl) as [r Hr].
  unfold dropped. change (lit "# Generated: " ++ s)
    with (0x23%N :: lit " Generated: " ++ s).
  rewrite Hr. reflexivity.
Qed.

(** X28: with the ignore patterns of the sample settings file, which have
    neither "!" nor "#", the line "Generated:" of a mock configuration
    is compared: two configurations of one device that were generated
    at different times are never identical, whatever their numbers. *)
Theorem sample_settings_compare_the_generation_time
    (device_type device_name : str) (t t' : datetime)
    (octet vlan_octet octet' vlan_octet' : nat) (env : Env) (path_a path_b : str) :
  valid_datetime t -> valid_datetime t' -> t <> t' ->
  identical (compare_texts env sample_ignore_lines
               (config_text device_type device_name t octet vlan_octet)
               (config_text device_type device_name t' octet' vlan_octet')
               path_a path_b device_name)
  = Some false.
Proof.
  intros Ht Ht' Hne.
  assert (Hstr : datetime_str t <> datetime_str t').
  { intros H. apply Hne. now apply datetime_str_injective. }
  assert (Hbang : lit "! Generated: " ++ datetime_str t
                  <> lit "! Generated: " ++ datetime_str t').
  { intros H. now apply app_inv_head in H. }
  assert (Hhash : lit "# Generated: " ++ datetime_str t
                  <> lit "# Generated: " ++ datetime_str t').
  { intros H. now apply app_inv_head in H. }
  unfold compare_texts. cbn [identical].
  match goal with
  | |- Some (Nat.eqb (length ?diffs) 0) = _ =>
      assert (Hd : diffs <> []); [|destruct diffs; [contradiction | reflexivity]]
  end.
  unfold config_text.
  destruct (str_eqb device_type (lit "cisco_ios"));
    [|destruct (str_eqb device_type (lit "juniper_junos"));
      [|destruct (str_eqb device_type (lit "arista_eos"))]].
  - apply (kept_line_is_compared sample_ignore_lines [_; _]);
      try apply (generated_line_one_line 0x21%N); try reflexivity;
      try apply kept_bang_generated; try discriminate; exact Hbang.
  - apply (kept_line_is_compared sample_ignore_lines [_]);
      try apply (generated_line_one_line 0x23%N); try reflexivity;
      try apply kept_hash_generated; try discriminate; exact Hhash.
  - apply (kept_line_is_compared sample_ignore_lines [_; _]);
      try apply (generated_line_one_line 0x21%N); try reflexivity;
      try apply kept_bang_generated; try discriminate; exact Hbang.
  - apply (kept_line_is_compared sample_ignore_lines [_; _]);
      try apply (generated_line_one_line 0x21%N); try reflexivity;
      try apply kept_bang_generated; try discriminate; exact Hbang.
Qed.

Lemma sample_settings_compare_the_generation_time_witness :
  identical (compare_texts echo sample_ignore_lines
               (config_text (lit "arista_eos") (lit "leaf1") (noon 2024 1 2) 17 0)
               (config_text (lit "arista_eos") (lit "leaf1") (noon 2024 1 3) 17 0)
               (lit "old.cfg") (lit "new.cfg") (lit "leaf1"))
  = Some false.
Proof.
  apply (sample_settings_compare_the_generation_time
           (lit "arista_eos") (lit "leaf1") (noon 2024 1 2) (noon 2024 1 3)).
  - unfold valid_datetime. simpl. lia.
  - unfold valid_datetime. simpl. lia.
  - discriminate.
Defined.

End ConfigsSpec.

(* ================================================================== *)
(** ** Two snapshots of a Cisco device *)

Module CiscoSpec.
Import DiffChecker CheckerProps MoreProps NormalizerSpec NormalizerMore.
Import MockConfigs ConfigsProps ConfigsSpec.

Lemma lit_cons (c : Ascii.ascii) (s : String.string) :
  lit (String.String c s) = Ascii.N_of_ascii c :: lit s.
Proof. reflexivity. Qed.

Lemma uint_one_line (u : Decimal.uint) :
  one_line (lit (DecimalString.NilEmpty.string_of_uint u)).
Proof.
  unfold one_line.
  induction u; simpl DecimalString.NilEmpty.string_of_uint;
    [constructor | rewrite lit_cons; constructor; [reflexivity | exact IHu] ..].
Qed.

Lemma str_of_nat_one_line (n : nat) : one_line (str_of_nat n).
Proof.
  unfold str_of_nat, DecimalString.NilZero.string_of_uint.
  destruct (Nat.to_uint n) eqn:E; try (rewrite <- E; apply uint_one_line).
  closed_one_line.
Qed.

Lemma strip_leading_space (c : N) (s : str) :
  is_space c = true -> strip (c :: s) = strip s.
Proof. intros Hc. unfold strip. simpl. now rewrite Hc. Qed.

(** A line whose first character is neither whitespace nor one of the
    two comment marks is kept by the default patterns. *)
Lemma kept_by_head (c : N) (s : str) :
  is_space c = false -> c <> 0x21%N -> c <> 0x23%N ->
  dropped default_patterns (c :: s) = false.
Proof.
  intros Hc H1 H2. destruct (strip_head c s Hc) as [r Hr].
  unfold dropped. rewrite Hr.
  apply N.eqb_neq in H1, H2.
  set (patterns := default_patterns). vm_compute in patterns. subst patterns.
  cbn [existsb startswith]. unfold chr_eqb.
  now rewrite H1, H2.
Qed.

Lemma kept_hostname (device_name : str) :
  dropped default_patterns (lit "hostname " ++ device_name) = false.
Proof. apply (kept_by_head 0x68%N); [reflexivity | discriminate | discriminate]. Qed.

Lemma kept_management_line (octet : nat) :
  dropped default_patterns (management_line octet) = false.
Proof.
  unfold dropped, management_line.
  change (lit " ip address 192.168.1." ++ str_of_nat octet ++ lit " 255.255.255.0")
    with (0x20%N :: 0x69%N :: lit "p address 192.168.1." ++ str_of_nat octet
                  ++ lit " 255.255.255.0").
  rewrite strip_leading_space by reflexivity.
  apply (kept_by_head 0x69%N); [reflexivity | discriminate | discriminate].
Qed.

Lemma kept_vlan_line (vlan_octet : nat) :
  dropped default_patterns (vlan_line vlan_octet) = false.
Proof.
  unfold dropped, vlan_line.
  change (lit " ip address 10.1.1." ++ str_of_nat vlan_octet ++ lit " 255.255.255.0")
    with (0x20%N :: 0x69%N :: lit "p address 10.1.1." ++ str_of_nat vlan_octet
                  ++ lit " 255.255.255.0").
  rewrite strip_leading_space by reflexivity.
  apply (kept_by_head 0x69%N); [reflexivity | discriminate | discriminate].
Qed.

Lemma dropped_title (device_name : str) :
  dropped default_patterns (lit "! Cisco IOS Configuration for " ++ device_name) = true.
Proof. apply dropped_bang. Qed.

Lemma dropped_generated (t : datetime) :
  dropped default_patterns (lit "! Generated: " ++ datetime_str t) = true.
Proof. apply dropped_bang. Qed.

Lemma management_line_one_line (octet : nat) : one_line (management_line octet).
Proof.
  unfold management_line, one_line.
  apply Forall_app. split; [closed_one_line|].
  apply Forall_app. split; [apply str_of_nat_one_line | closed_one_line].
Qed.

Lemma vlan_line_one_line (vlan_octet : nat) : one_line (vlan_line vlan_octet).
Proof.
  unfold vlan_line, one_line.
  apply Forall_app. split; [closed_one_line|].
  apply Forall_app. split; [apply str_of_nat_one_line | closed_one_line].
Qed.

Ltac part_one_line :=
  first
    [ apply management_line_one_line
    | apply vlan_line_one_line
    | closed_one_line
    | apply Forall_app; split; [closed_one_line|];
      first [ assumption | apply datetime_str_one_line ] ].

Lemma filter_cons_dropped (patterns : list str) (x : str) (l : list str) :
  dropped patterns x = true ->
  filter (fun line => negb (dropped patterns line)) (x :: l)
  = filter (fun line => negb (dropped patterns line)) l.
Proof. intros H. simpl. now rewrite H. Qed.

Lemma filter_cons_kept (patterns : list str) (x : str) (l : list str) :
  dropped patterns x = false ->
  filter (fun line => negb (dropped patterns line)) (x :: l)
  = x :: filter (fun line => negb (dropped patterns line)) l.
Proof. intros H. simpl. now rewrite H. Qed.

Ltac line_kept :=
  match goal with
  | |- dropped _ (lit "hostname " ++ _) = false => apply kept_hostname
  | |- dropped _ (management_line _) = false => apply kept_management_line
  | |- dropped _ (vlan_line _) = false => apply kept_vlan_line
  | |- dropped _ (lit _) = false => reflexivity
  end.

Ltac line_dropped :=
  match goal with
  | |- dropped _ (lit _ ++ _) = true => apply dropped_bang
  | |- dropped _ (lit _) = true => reflexivity
  end.

Ltac decide_line :=
  first [ rewrite filter_cons_kept by line_kept
        | rewrite filter_cons_dropped by line_dropped ].

(** The kept lines of a Cisco configuration. *)
Lemma cisco_filtered_lines
    (device_name : str) (t : datetime) (octet vlan_octet : nat) :
  one_line device_name ->
  filtered_lines default_patterns
    (generate_cisco_config device_name t octet vlan_octet)
  = cisco_kept_lines device_name octet vlan_octet.
Proof.
  intros Hname. rewrite filtered_lines_filter. unfold generate_cisco_config.
  fold (management_line octet). fold (vlan_line vlan_octet).
  rewrite splitlines_join by (repeat (apply Forall_cons; [part_one_line|]); constructor).
  cbn [drop_final_empty].
  repeat decide_line.
  reflexivity.
Qed.

Lemma positional_diff_cons (a b : str) (la lb : list str) :
  positional_diff (a :: la) (b :: lb)
  = (if str_eqb a b then []
     else [{| line_number := 1; old_value := a; new_value := b |}])
    ++ map (shift_by 1) (positional_diff la lb).
Proof.
  unfold positional_diff. cbn [length Nat.max].
  cbn [seq]. rewrite <- seq_shift. cbn [filter].
  assert (Htail : map (record_at (a :: la) (b :: lb))
                    (filter (differ_at (a :: la) (b :: lb))
                       (map S (seq 0 (Nat.max (length la) (length lb)))))
                  = map (shift_by 1)
                      (map (record_at la lb)
                         (filter (differ_at la lb)
                            (seq 0 (Nat.max (length la) (length lb)))))).
  { induction (seq 0 (Nat.max (length la) (length lb))) as [|i l IH];
      [reflexivity|].
    cbn [map filter].
    change (differ_at (a :: la) (b :: lb) (S i)) with (differ_at la lb i).
    destruct (differ_at la lb i); cbn [map]; rewrite IH; reflexivity. }
  unfold differ_at at 1. cbn [nth].
  destruct (str_eqb a b); cbn [negb map app]; rewrite Htail; reflexivity.
Qed.

Lemma shift_by_shift_by (j k : nat) (r : DifferenceRecord) :
  shift_by j (shift_by k r) = shift_by (j + k) r.
Proof. unfold shift_by. simpl. f_equal. lia. Qed.

(** Lines that two sequences have in common at their start only move
    the differences of what follows. *)
Lemma positional_diff_prefix (common la lb : list str) :
  positional_diff (common ++ la) (common ++ lb)
  = map (shift_by (length common)) (positional_diff la lb).
Proof.
  induction common as [|c common IH].
  - simpl. rewrite <- (map_id (positional_diff la lb)) at 1.
    apply map_ext. now intros [n o v].
  - cbn [app length]. rewrite positional_diff_cons, str_eqb_refl, IH. cbn [app].
    rewrite map_map. apply map_ext. intros r. apply shift_by_shift_by.
Qed.

Lemma positional_diff_same (lines : list str) : positional_diff lines lines = [].
Proof. now apply DiffMore.positional_diff_nil. Qed.

Lemma compared_lines_of_cisco (device_name : str) (t : datetime) (octet vlan_octet : nat) :
  one_line device_name ->
  splitlines (filter_ignored_lines default_patterns
                (generate_cisco_config device_name t octet vlan_octet))
  = cisco_kept_lines device_name octet vlan_octet.
Proof.
  intros Hname. rewrite filter_ignored_lines_join.
  rewrite splitlines_join by apply filtered_lines_one_line.
  rewrite cisco_filtered_lines by assumption.
  unfold cisco_kept_lines, cisco_head, cisco_middle, cisco_tail. cbn [app].
  reflexivity.
Qed.

Lemma lit_injective (s s' : String.string) : lit s = lit s' -> s = s'.
Proof.
  revert s'. induction s as [|c s IH]; intros [|c' s'] H; try discriminate.
  - reflexivity.
  - rewrite !lit_cons in H. injection H as Hc Hs.
    f_equal; [|now apply IH].
    rewrite <- (Ascii.ascii_N_embedding c), <- (Ascii.ascii_N_embedding c').
    now rewrite Hc.
Qed.

Lemma to_uint_not_Nil (n : nat) : Nat.to_uint n <> Decimal.Nil.
Proof.
  rewrite <- (DecimalNat.Unsigned.of_to n) at 1.
  rewrite DecimalNat.Unsigned.to_of. unfold Decimal.unorm.
  destruct (Decimal.nzhead (Nat.to_uint n)); discriminate.
Qed.

Lemma str_of_nat_injective (m n : nat) : str_of_nat m = str_of_nat n -> m = n.
Proof.
  unfold str_of_nat. intros H. apply lit_injective in H.
  apply DecimalNat.Unsigned.to_uint_inj.
  pose proof (DecimalString.NilZero.usu _ (to_uint_not_Nil m)) as Hm.
  pose proof (DecimalString.NilZero.usu _ (to_uint_not_Nil n)) as Hn.
  rewrite H in Hm. congruence.
Qed.

Lemma management_line_eqb (m n : nat) :
  str_eqb (management_line m) (management_line n) = Nat.eqb m n.
Proof.
  destruct (Nat.eqb m n) eqn:E.
  - apply Nat.eqb_eq in E. subst. apply str_eqb_refl.
  - apply str_eqb_neq. intros H. apply Nat.eqb_neq in E. apply E.
    unfold management_line in H.
    apply app_inv_head, app_inv_tail in H. now apply str_of_nat_injective.
Qed.

Lemma vlan_line_eqb (m n : nat) :
  str_eqb (vlan_line m) (vlan_line n) = Nat.eqb m n.
Proof.
  destruct (Nat.eqb m n) eqn:E.
  - apply Nat.eqb_eq in E. subst. apply str_eqb_refl.
  - apply str_eqb_neq. intros H. apply Nat.eqb_neq in E. apply E.
    unfold vlan_line in H.
    apply app_inv_head, app_inv_tail in H. now apply str_of_nat_injective.
Qed.

(** X29: two Cisco configurations generated for one device, compared under
    the default patterns, differ at most in the management address
    (line 15 of the compared text) and in the address of Vlan1 (line 25),
    and in each exactly when the drawn numbers differ; the time of the
    generation plays no part. *)
Theorem cisco_snapshots_differ_in_addresses_only
    (device_name : str) (t t' : datetime)
    (octet vlan_octet octet' vlan_octet' : nat) (env : Env) (path_a path_b : str) :
  one_line device_name ->
  differences (compare_texts env default_patterns
                 (generate_cisco_config device_name t octet vlan_octet)
                 (generate_cisco_config device_name t' octet' vlan_octet')
                 path_a path_b device_name)
  = Some (cisco_differences octet vlan_octet octet' vlan_octet').
Proof.
  intros Hname. unfold compare_texts. cbn [differences]. f_equal.
  rewrite DiffSpec.compare_lines_positional.
  rewrite !compared_lines_of_cisco by assumption.
  unfold cisco_kept_lines.
  rewrite positional_diff_prefix, positional_diff_cons, management_line_eqb.
  rewrite positional_diff_prefix, positional_diff_cons, vlan_line_eqb.
  rewrite positional_diff_same. unfold cisco_differences.
  destruct (Nat.eqb octet octet'), (Nat.eqb vlan_octet vlan_octet'); reflexivity.
Qed.

Lemma cisco_snapshots_differ_in_addresses_only_witness :
  one_line (lit "core-switch-01") /\
  differences (compare_texts echo default_patterns
                 (generate_cisco_config (lit "core-switch-01") (noon 2024 1 2) 17 150)
                 (generate_cisco_config (lit "core-switch-01") (noon 2024 1 3) 17 151)
                 (lit "old.cfg") (lit "new.cfg") (lit "core-switch-01"))
  = Some [{| line_number := 25;
             old_value := lit " ip address 10.1.1.150 255.255.255.0";
             new_value := lit " ip address 10.1.1.151 255.255.255.0" |}].
Proof.
  split; [closed_one_line|].
  apply (cisco_snapshots_differ_in_addresses_only
           (lit "core-switch-01") (noon 2024 1 2) (noon 2024 1 3) 17 150 17 151).
  closed_one_line.
Defined.

End CiscoSpec.
